(** * uwt: the bridge between the OCaml runtime and libuv handles

    A shallow embedding of [uwt_stubs_fs_poll.c] and [uwt_stubs_tty.c]:
    the file-system poller ([fs_poll_cb], [uwt_fs_poll_start]) and the
    terminal stubs ([uwt_tty_init], [uwt_tty_set_mode_na]).

    The C functions thread one mutable world (the malloc'ed [struct handle]s,
    the custom blocks that point to them, the global root table) and call
    into libuv.  They are written here in a small state monad over that
    world; every call that leaves the two files is logged in a trace, so
    that "what was called, and in which order" can be stated. *)

From Stdlib Require Import ZArith String Ascii.
From stdpp Require Import base option list gmap fin_maps.

Set Warnings "-register-all".
Local Open Scope Z_scope.

(** ** Host values *)

(** Modelled from the spec: the error codes handed to OCaml, whose type is
    declared in a header outside the two files.  A code is drawn from a
    fixed enumeration of native status codes ([UWT_ERRNO i] is its [i]-th
    member), plus two host-defined validation codes that are produced before
    any native call is attempted (invalid-encoding and invalid-argument).
    [UWT_UNKNOWN] stands for a status outside the enumeration. *)
Inductive uwt_error : Type :=
| UWT_ERRNO (i : nat)
| UWT_UNKNOWN
| UWT_ECHARSET
| UWT_EINVAL.

(** OCaml values, as far as the stubs look into them. *)
Inductive value : Type :=
| Val_unit
| Val_long (n : Z)
| Val_string (s : string)
| Val_closure (f : nat)
| Val_custom (b : nat)
| Val_error (e : uwt_error)
| Val_exception (exn : nat)
| Block (tag : nat) (fields : list value).

(** [type ('a, 'b) result = Ok of 'a | Error of 'b] *)
Definition Ok_tag : nat := 0.
Definition Error_tag : nat := 1.

Definition caml_alloc_small (n : nat) (tag : nat) : value :=
  Block tag (replicate n Val_unit).

(** [Field(b,i)] read, [Field(b,i) = x] and [Tag_val(b) = t] on a block. *)
Definition Field (b : value) (i : nat) : value :=
  match b with
  | Block _ fs => default Val_unit (fs !! i)
  | _ => Val_unit
  end.

Definition Store_field (b : value) (i : nat) (x : value) : value :=
  match b with
  | Block t fs => Block t (<[i := x]> fs)
  | _ => b
  end.

Definition Set_tag (b : value) (t : nat) : value :=
  match b with
  | Block _ fs => Block t fs
  | _ => b
  end.

Definition Tag_val (b : value) : option nat :=
  match b with
  | Block t _ => Some t
  | _ => None
  end.

Definition Long_val (v : value) : Z :=
  match v with
  | Val_long n => n
  | _ => 0
  end.

(** The conversion of a C [long] to a C [int]: the value modulo 2^32, taken
    between -2^31 and 2^31 - 1. *)
Definition int_of_long (z : Z) : Z :=
  (z + 2147483648) mod 4294967296 - 2147483648.

(** [FD_VAL(v)] as the C [int] it is assigned to ([const int fd =
    FD_VAL(o_fd)]): on Unix a file descriptor is an OCaml int, read with
    [Long_val] and narrowed to [int]. *)
Definition FD_VAL (v : value) : Z := int_of_long (Long_val v).

Definition String_val (v : value) : string :=
  match v with
  | Val_string s => s
  | _ => EmptyString
  end.

(** [String_val(v)[0]]: OCaml strings carry a terminating NUL byte, so the
    first byte of the empty string is NUL. *)
Definition String_val_0 (v : value) : ascii :=
  match String_val v with
  | EmptyString => Ascii.zero
  | String c _ => c
  end.

Definition Is_exception_result (v : value) : bool :=
  match v with
  | Val_exception _ => true
  | _ => false
  end.

(** Modelled from the spec: [uwt__alloc_eresult(e)] allocates the result
    value [Error(e)]. *)
Definition uwt__alloc_eresult (e : uwt_error) : value :=
  Store_field (caml_alloc_small 1 Error_tag) 0 (Val_error e).

(** Modelled from the spec: the two validation codes, invalid-encoding and
    invalid-argument. *)
Definition VAL_UWT_ERROR_ECHARSET : uwt_error := UWT_ECHARSET.
Definition VAL_UWT_ERROR_EINVAL : uwt_error := UWT_EINVAL.

(** ** Handles, the root table and the world *)

Inductive uv_handle_type : Type := UV_FS_POLL | UV_TTY.

Inductive uv_tty_mode_t : Type :=
| UV_TTY_MODE_NORMAL
| UV_TTY_MODE_RAW
| UV_TTY_MODE_IO.

(** A slot of the root table; [None] is the invalid slot. *)
Definition cb_t : Type := option nat.

Inductive cb_field : Type := Cb_read | Cb_listen.

(** [struct handle]: the fields the two files and the spec name. *)
Record handle : Type := Handle {
  h_type : uv_handle_type;
  initialized : bool;
  closed : bool;
  cb_read : cb_t;
  cb_listen : cb_t;
}.

Definition get_cb (f : cb_field) (hd : handle) : cb_t :=
  match f with
  | Cb_read => cb_read hd
  | Cb_listen => cb_listen hd
  end.

Definition set_cb (f : cb_field) (s : cb_t) (hd : handle) : handle :=
  match f with
  | Cb_read => Handle (h_type hd) (initialized hd) (closed hd) s (cb_listen hd)
  | Cb_listen => Handle (h_type hd) (initialized hd) (closed hd) (cb_read hd) s
  end.

Definition set_init (b : bool) (hd : handle) : handle :=
  Handle (h_type hd) b (closed hd) (cb_read hd) (cb_listen hd).

Definition set_closed (b : bool) (hd : handle) : handle :=
  Handle (h_type hd) (initialized hd) b (cb_read hd) (cb_listen hd).

(** The native stat record; its layout is out of scope, only its numeric
    fields are kept. *)
Definition uv_stat_t : Type := list Z.

(** Calls that leave the two files, in the order they are made.  Native
    calls carry the status they returned. *)
Inductive event : Type :=
| E_gr_root_enlarge
| E_handle_create (t : uv_handle_type) (b : bool) (v h : nat)
| E_uv_fs_poll_init (l h : nat) (erg : Z)
| E_uv_fs_poll_start (h : nat) (path : string) (interval : Z) (erg : Z)
| E_uv_tty_init (l h : nat) (fd : Z) (readable : bool) (erg : Z)
| E_uv_tty_set_mode (h : nat) (m : uv_tty_mode_t) (erg : Z)
| E_uv_tty_reset_mode (erg : Z)
| E_uv_tty_get_winsize (h : nat) (erg : Z)
| E_native_free (h : nat)
| E_uv_close (h : nat)
| E_gr_register (h : nat) (f : cb_field) (slot : nat) (v : value)
| E_gr_unregister (h : nat) (f : cb_field) (slot : nat)
| E_callback (cb t param : value).

(** The world: [w_heap] maps the address of a live [struct handle] to its
    contents (address 0 is NULL and never allocated), [w_blocks] gives
    [Field(v,1)] of each custom block, the pointer to its [struct handle],
    [w_roots] is the global root table with its free slots. *)
Record world : Type := World {
  w_heap : gmap nat handle;
  w_blocks : gmap nat nat;
  w_roots : list (option value);
  w_trace : list event;
}.

Definition empty_world : world := World ∅ ∅ [] [].

(** What the two files take from outside: libuv, the host program and the
    macros whose bodies the spec does not describe.  [INIT_LOOP_RESULT] and
    [HANDLE_INIT_NOUNINIT_NA] either make the function return a value at once
    ([inl]) or bind the loop, or the handle ([inr]);
    [HANDLE_NO_UNINIT_CLOSED_WRAP] makes it return a value or lets it go on.
    [uv_tty_get_winsize] yields its status, the width and the height. *)
Record environment : Type := Environment {
  uv_errnos : list Z;
  UV_ENOMEM : Z;
  uwt_is_safe_string : string -> bool;
  Uv_loop_val : value -> nat;
  INIT_LOOP_RESULT : value -> value + nat;
  HANDLE_INIT_NOUNINIT_NA : world -> value -> value + nat;
  HANDLE_NO_UNINIT_CLOSED_WRAP : world -> value -> option value;
  gr_can_grow : nat -> bool;
  uv_fs_poll_init : nat -> nat -> Z;
  uv_fs_poll_start : nat -> string -> Z -> Z;
  uv_tty_init : nat -> nat -> Z -> bool -> Z;
  uv_tty_set_mode : nat -> uv_tty_mode_t -> Z;
  uv_tty_reset_mode : unit -> Z;
  uv_tty_get_winsize : nat -> Z * Z * Z;
  caml_callback2_exn : value -> value -> value -> value * bool;
  NDEBUG : bool;
}.

(** ** The monad of the stubs *)

Inductive outcome (A : Type) : Type :=
| Done (a : A)
| Aborted.
Arguments Done {A} a.
Arguments Aborted {A}.

Definition M (A : Type) : Type := world -> outcome A * world.

Definition ret {A : Type} (a : A) : M A := fun w => (Done a, w).

Definition bind {A B : Type} (m : M A) (k : A -> M B) : M B :=
  fun w =>
    match m w with
    | (Done a, w1) => k a w1
    | (Aborted, w1) => (Aborted, w1)
    end.

Notation "x <- c1 ;; c2" := (bind c1 (fun x => c2))
  (at level 100, c1 at next level, right associativity).
Notation "c1 ;; c2" := (bind c1 (fun _ => c2))
  (at level 100, right associativity).

Definition log (e : event) : M unit :=
  fun w => (Done tt, World (w_heap w) (w_blocks w) (w_roots w) (w_trace w ++ [e])).

Definition abort {A : Type} : M A := fun w => (Aborted, w).

(** Loads and stores on the world. *)

(** Modelled from the spec: [Handle_val(v)], the [struct handle] that the
    host-visible value of a handle points to, NULL once the pointer has been
    cleared. *)
Definition Handle_val (v : value) : M nat :=
  fun w =>
    match v with
    | Val_custom b => (Done (default 0%nat (w_blocks w !! b)), w)
    | _ => (Done 0%nat, w)
    end.

(** [Field(v,1) = p] on the custom block of a handle. *)
Definition Store_handle_ptr (v : value) (p : nat) : M unit :=
  fun w =>
    match v with
    | Val_custom b =>
        (Done tt, World (w_heap w) (<[b := p]> (w_blocks w)) (w_roots w) (w_trace w))
    | _ => (Done tt, w)
    end.

(** [h->initialized = b] *)
Definition store_initialized (h : nat) (b : bool) : M unit :=
  fun w =>
    (Done tt, World (alter (set_init b) h (w_heap w)) (w_blocks w) (w_roots w) (w_trace w)).

(** [h->cb_read], [h->cb_listen] *)
Definition load_cb (h : nat) (f : cb_field) : M cb_t :=
  fun w => (Done (w_heap w !! h ≫= get_cb f), w).

(** ** The root table *)

(** Modelled from the spec: the Root Registry is a table of slots that pins
    host values; it grows on demand and never shrinks.  [None] is a free
    slot. *)
Fixpoint find_free (r : list (option value)) : option nat :=
  match r with
  | [] => None
  | None :: _ => Some 0%nat
  | Some _ :: r' => S <$> find_free r'
  end.

Fixpoint count_free (r : list (option value)) : nat :=
  match r with
  | [] => 0%nat
  | None :: r' => S (count_free r')
  | Some _ :: r' => count_free r'
  end.

(** The slot the next registration takes. *)
Definition next_slot (r : list (option value)) : nat :=
  default 0%nat (find_free r).

(** Modelled from the spec: [GET_CB_VAL(slot)] resolves a slot stored in
    the handle back to the value pinned in the root table. *)
Definition GET_CB_VAL (slot : cb_t) : M value :=
  fun w =>
    match slot with
    | Some i =>
        match w_roots w !! i with
        | Some (Some v) => (Done v, w)
        | _ => (Done Val_unit, w)
        end
    | None => (Done Val_unit, w)
    end.

(** Modelled from the spec: [uwt__gr_register(&h->f, v)], the registry's
    [register(value) -> slot].  The value is pinned in a free slot of the
    table and the slot is written into the handle's field.  When the table
    has no free slot nothing is pinned: enlargement has to be requested
    beforehand. *)
Definition uwt__gr_register (h : nat) (f : cb_field) (v : value) : M unit :=
  fun w =>
    match find_free (w_roots w) with
    | Some i =>
        (Done tt,
         World (alter (set_cb f (Some i)) h (w_heap w)) (w_blocks w)
               (<[i := Some v]> (w_roots w))
               (w_trace w ++ [E_gr_register h f i v]))
    | None => (Done tt, w)
    end.

(** Modelled from the spec: the registry's [release(slot)] on the slot held
    in a field of the handle; the field is cleared, so that a slot is
    released once. *)
Definition uwt__gr_unregister (h : nat) (f : cb_field) : M unit :=
  fun w =>
    match w_heap w !! h ≫= get_cb f with
    | Some i =>
        (Done tt,
         World (alter (set_cb f None) h (w_heap w)) (w_blocks w)
               (<[i := None]> (w_roots w))
               (w_trace w ++ [E_gr_unregister h f i]))
    | None => (Done tt, w)
    end.

(** The addresses [malloc] and the OCaml allocator hand out next: any
    address that is not in use (and not NULL). *)
Definition new_handle (w : world) : nat := fresh ({[0%nat]} ∪ dom (w_heap w)).
Definition new_block (w : world) : nat := fresh (dom (w_blocks w)).

(** A handle in state Uninit. *)
Definition fresh_handle (t : uv_handle_type) : handle :=
  Handle t false false None None.

(** Modelled from the spec: [uwt__handle_res_create(type, b)] allocates the
    handle wrapper with its native struct, in state Uninit (not initialized,
    not closed, no registry slot), and the host-visible custom block that
    points to it; it returns [Ok v].  The meaning of the second argument is
    not described; it is kept in the trace. *)
Definition uwt__handle_res_create (t : uv_handle_type) (b : bool) : M value :=
  fun w =>
    let h := new_handle w in
    let v := new_block w in
    (Done (Store_field (caml_alloc_small 1 Ok_tag) 0 (Val_custom v)),
     World (<[h := fresh_handle t]> (w_heap w))
           (<[v := h]> (w_blocks w)) (w_roots w)
           (w_trace w ++ [E_handle_create t b v h])).

(** Modelled from the spec: [uwt__free_handle(h)], the free path.  The
    native struct's free routine runs at once; there is no close sequence
    and no registry interaction. *)
Definition uwt__free_handle (h : nat) : M unit :=
  fun w =>
    (Done tt,
     World (delete h (w_heap w)) (w_blocks w) (w_roots w)
           (w_trace w ++ [E_native_free h])).

Definition mark_closed (h : nat) : M unit :=
  fun w =>
    (Done tt, World (alter (set_closed true) h (w_heap w)) (w_blocks w) (w_roots w) (w_trace w)).

(** Modelled from the spec: [uwt__handle_finalize_close(h)], the native
    close sequence.  It releases the registry slots the handle holds, frees
    the native struct once and leaves the handle Closed; on a handle that is
    already Closed (or gone) it is a no-op. *)
Definition uwt__handle_finalize_close (h : nat) : M unit :=
  fun w =>
    match w_heap w !! h with
    | Some hd =>
        if closed hd then (Done tt, w)
        else
          (log (E_uv_close h) ;;
           uwt__gr_unregister h Cb_read ;;
           uwt__gr_unregister h Cb_listen ;;
           log (E_native_free h) ;;
           mark_closed h) w
    | None => (Done tt, w)
    end.

Section Stubs.

Variable env : environment.

(** ** Error code translator *)

Fixpoint errno_index (n : Z) (codes : list Z) : option nat :=
  match codes with
  | [] => None
  | c :: cs => if n =? c then Some 0%nat else S <$> errno_index n cs
  end.

(** Modelled from the spec: [Val_uwt_error(status)], the error code
    translator.  The code of a native status is its identifier in the
    enumeration of native status codes; it is a pure function. *)
Definition Val_uwt_error (n : Z) : uwt_error :=
  match errno_index n (uv_errnos env) with
  | Some i => UWT_ERRNO i
  | None => UWT_UNKNOWN
  end.

(** What the caller reads back from an error code: the native status it
    stands for.  The two validation codes stand for no native status. *)
Definition uwt_error_code (e : uwt_error) : option Z :=
  match e with
  | UWT_ERRNO i => uv_errnos env !! i
  | _ => None
  end.

(** Modelled from the spec: [VAL_UWT_UNIT_RESULT(ret)]: a negative status
    maps to [Error(code)], any other to [Ok ()]. *)
Definition VAL_UWT_UNIT_RESULT (r : Z) : value :=
  if r <? 0 then uwt__alloc_eresult (Val_uwt_error r)
  else Store_field (caml_alloc_small 1 Ok_tag) 0 Val_unit.

Definition UINT_MAX : Z := 4294967295.

(** Modelled from the spec: [UINT_VAL_RET_WRAP_EINVAL(x, o)]: a numeric
    argument must fit the native unsigned width, otherwise the function
    returns [Error(invalid-argument)]. *)
Definition UINT_VAL_RET_WRAP_EINVAL (o : value) : value + Z :=
  if (Long_val o <? 0) || (UINT_MAX <? Long_val o)
  then inl (uwt__alloc_eresult VAL_UWT_ERROR_EINVAL)
  else inr (Long_val o).

(** Modelled from the spec: [GR_ROOT_ENLARGE()].  Enlargement of the root
    table is requested before any value is pinned in the same step: when
    fewer than two slots are free the table grows (it never shrinks); when
    it cannot grow the start operation ends with an Error result. *)
Definition GR_ROOT_ENLARGE : M (option value) :=
  fun w =>
    let w1 := World (w_heap w) (w_blocks w) (w_roots w) (w_trace w ++ [E_gr_root_enlarge]) in
    if (2 <=? count_free (w_roots w))%nat then (Done None, w1)
    else if gr_can_grow env (length (w_roots w)) then
      (Done None,
       World (w_heap w) (w_blocks w)
             (w_roots w ++ replicate (length (w_roots w) + 2) None)
             (w_trace w ++ [E_gr_root_enlarge]))
    else (Done (Some (uwt__alloc_eresult (Val_uwt_error (UV_ENOMEM env)))), w1).

(** ** Native calls *)

Definition call_uv_fs_poll_init (l h : nat) : M Z :=
  let erg := uv_fs_poll_init env l h in
  log (E_uv_fs_poll_init l h erg) ;; ret erg.

Definition call_uv_fs_poll_start (h : nat) (path : string) (interval : Z) : M Z :=
  let erg := uv_fs_poll_start env h path interval in
  log (E_uv_fs_poll_start h path interval erg) ;; ret erg.

Definition call_uv_tty_init (l h : nat) (fd : Z) (readable : bool) : M Z :=
  let erg := uv_tty_init env l h fd readable in
  log (E_uv_tty_init l h fd readable erg) ;; ret erg.

Definition call_uv_tty_set_mode (h : nat) (m : uv_tty_mode_t) : M Z :=
  let erg := uv_tty_set_mode env h m in
  log (E_uv_tty_set_mode h m erg) ;; ret erg.

Definition call_uv_tty_reset_mode : M Z :=
  let erg := uv_tty_reset_mode env tt in
  log (E_uv_tty_reset_mode erg) ;; ret erg.

Definition call_uv_tty_get_winsize (h : nat) : M (Z * Z * Z) :=
  let r := uv_tty_get_winsize env h in
  log (E_uv_tty_get_winsize h (fst (fst r))) ;; ret r.

(** [caml_callback2_exn(cb, t, param)]: the host callback runs; it returns a
    value or an exception result, and may have asked for the handle to be
    closed. *)
Definition call_caml_callback2_exn (cb t param : value) : M (value * bool) :=
  log (E_callback cb t param) ;; ret (caml_callback2_exn env cb t param).

(** [assert(false)] *)
Definition assert_false : M unit :=
  if NDEBUG env then ret tt else abort.

(** ** uwt_stubs_fs_poll.c *)

(** Modelled from the spec: [uwt__stat_to_value(s)] marshals a native stat
    record into a host record by copying its fields. *)
Definition uwt__stat_to_value (s : uv_stat_t) : value :=
  Block 0 (Val_long <$> s).

(** Modelled from the spec: [HANDLE_CB_START(h, handle)] resolves the Handle
    from the native pointer through its back-pointer; a Handle is never
    dispatched to once it is closed, so the trampoline returns at once for a
    handle that is closed or gone. *)
Definition HANDLE_CB_START (handle : nat) : M (option nat) :=
  fun w =>
    match w_heap w !! handle with
    | Some hd => if closed hd then (Done None, w) else (Done (Some handle), w)
    | None => (Done None, w)
    end.

(** Modelled from the spec: [HANDLE_CB_END(r)]: when the callback raised, or
    asked for the handle to be closed, the dispatcher finishes the close
    sequence before it returns to the native loop. *)
Definition HANDLE_CB_END (h : nat) (r : value * bool) : M unit :=
  if Is_exception_result (fst r) || snd r
  then uwt__handle_finalize_close h
  else ret tt.

Definition fs_poll_cb_param (status : Z) (prev curr : uv_stat_t) : value :=
  if status <? 0 then
    let param := caml_alloc_small 1 Error_tag in
    Store_field param 0 (Val_error (Val_uwt_error status))
  else
    let s1 := uwt__stat_to_value prev in
    let s2 := uwt__stat_to_value curr in
    let tup := caml_alloc_small 2 0 in
    let tup := Store_field tup 0 s1 in
    let tup := Store_field tup 1 s2 in
    let param := caml_alloc_small 1 Ok_tag in
    Store_field param 0 tup.

Definition fs_poll_cb (handle : nat) (status : Z) (prev curr : uv_stat_t) : M unit :=
  oh <- HANDLE_CB_START handle ;;
  match oh with
  | None => ret tt
  | Some h =>
      let param := fs_poll_cb_param status prev curr in
      s_read <- load_cb h Cb_read ;;
      cb <- GET_CB_VAL s_read ;;
      s_listen <- load_cb h Cb_listen ;;
      t <- GET_CB_VAL s_listen ;;
      r <- call_caml_callback2_exn cb t param ;;
      HANDLE_CB_END h r
  end.

Definition uwt_fs_poll_start (o_loop o_path o_interval o_cb : value) : M value :=
  if negb (uwt_is_safe_string env (String_val o_path)) then
    ret (uwt__alloc_eresult VAL_UWT_ERROR_ECHARSET)
  else if Ascii.eqb (String_val_0 o_path) Ascii.zero then
    ret (uwt__alloc_eresult VAL_UWT_ERROR_EINVAL)
  else
    match UINT_VAL_RET_WRAP_EINVAL o_interval with
    | inl r => ret r
    | inr interval =>
    match INIT_LOOP_RESULT env o_loop with
    | inl r => ret r
    | inr l =>
        full <- GR_ROOT_ENLARGE ;;
        match full with
        | Some r => ret r
        | None =>
            res <- uwt__handle_res_create UV_FS_POLL false ;;
            let v := Field res 0 in
            h <- Handle_val v ;;
            erg <- call_uv_fs_poll_init l h ;;
            erg <- (if erg <? 0 then
                      uwt__free_handle h ;; ret erg
                    else
                      erg <- call_uv_fs_poll_start h (String_val o_path) interval ;;
                      (if erg <? 0 then
                         uwt__handle_finalize_close h
                       else
                         uwt__gr_register h Cb_read o_cb ;;
                         uwt__gr_register h Cb_listen v) ;;
                      ret erg) ;;
            if erg <? 0 then
              Store_handle_ptr v 0 ;;
              let res := Set_tag res Error_tag in
              let res := Store_field res 0 (Val_error (Val_uwt_error erg)) in
              ret res
            else ret res
        end
    end
    end.

(** ** uwt_stubs_tty.c *)

(** Lines 27 to 33 of [uwt_tty_init]: all that precedes the native call.
    [fd] is a C [int]: [FD_VAL] narrows the OCaml integer to 32 bits. *)
Definition uwt_tty_init_enter (o_loop o_fd o_readable : value)
  : M (nat * Z * bool * value * value * nat) :=
  let l := Uv_loop_val env o_loop in
  let fd := FD_VAL o_fd in
  let readable := Long_val o_readable =? 1 in
  res <- uwt__handle_res_create UV_TTY true ;;
  let dc := Field res 0 in
  h <- Handle_val dc ;;
  store_initialized h true ;;
  ret (l, fd, readable, res, dc, h).

(** Lines 34 to 41: the native call and what follows it. *)
Definition uwt_tty_init_call (st : nat * Z * bool * value * value * nat) : M value :=
  let '(l, fd, readable, res, dc, h) := st in
  erg <- call_uv_tty_init l h fd readable ;;
  if erg <? 0 then
    uwt__free_handle h ;;
    Store_handle_ptr dc 0 ;;
    let res := Store_field res 0 (Val_error (Val_uwt_error erg)) in
    let res := Set_tag res Error_tag in
    ret res
  else ret res.

Definition uwt_tty_init (o_loop o_fd o_readable : value) : M value :=
  st <- uwt_tty_init_enter o_loop o_fd o_readable ;;
  uwt_tty_init_call st.

(** The [switch] of [uwt_tty_set_mode_na]: the default case asserts and, when
    assertions are compiled out, falls into case 0. *)
Definition tty_mode_switch (m : Z) : M uv_tty_mode_t :=
  match m with
  | 2 => ret UV_TTY_MODE_IO
  | 1 => ret UV_TTY_MODE_RAW
  | 0 => ret UV_TTY_MODE_NORMAL
  | _ => assert_false ;; ret UV_TTY_MODE_NORMAL
  end.

Definition uwt_tty_set_mode_na (o_tty o_mode : value) : M value :=
  fun w =>
    match HANDLE_INIT_NOUNINIT_NA env w o_tty with
    | inl r => (Done r, w)
    | inr s =>
        (mode <- tty_mode_switch (Long_val o_mode) ;;
         r <- call_uv_tty_set_mode s mode ;;
         ret (VAL_UWT_UNIT_RESULT r)) w
    end.

Definition uwt_tty_reset_mode_na (unit : value) : M value :=
  x <- call_uv_tty_reset_mode ;;
  ret (VAL_UWT_UNIT_RESULT x).

(** Lines 78 to 88 of [uwt_tty_get_winsize]: the result built from the
    status, the width and the height. *)
Definition uwt_tty_get_winsize_result (erg width height : Z) : value :=
  if erg <? 0 then
    let res := caml_alloc_small 1 Error_tag in
    Store_field res 0 (Val_error (Val_uwt_error erg))
  else
    let tup := caml_alloc_small 2 0 in
    let tup := Store_field tup 0 (Val_long width) in
    let tup := Store_field tup 1 (Val_long height) in
    let res := caml_alloc_small 1 Ok_tag in
    Store_field res 0 tup.

Definition uwt_tty_get_winsize (o_tty : value) : M value :=
  fun w =>
    match HANDLE_NO_UNINIT_CLOSED_WRAP env w o_tty with
    | Some r => (Done r, w)
    | None =>
        (s <- Handle_val o_tty ;;
         r <- call_uv_tty_get_winsize s ;;
         let '(erg, width, height) := r in
         ret (uwt_tty_get_winsize_result erg width height)) w
    end.

(** What the host reads in a result: the native status an [Error] stands
    for. *)
Definition result_error_code (r : value) : option Z :=
  match r with
  | Block 1 [Val_error e] => uwt_error_code e
  | _ => None
  end.

End Stubs.
(** ** Reading a trace *)

Definition is_native_free (h : nat) (e : event) : bool :=
  match e with
  | E_native_free h' => Nat.eqb h h'
  | _ => false
  end.

Definition is_uv_close (h : nat) (e : event) : bool :=
  match e with
  | E_uv_close h' => Nat.eqb h h'
  | _ => false
  end.

Definition is_register (h : nat) (e : event) : bool :=
  match e with
  | E_gr_register h' _ _ _ => Nat.eqb h h'
  | _ => false
  end.

Definition is_unregister (h : nat) (e : event) : bool :=
  match e with
  | E_gr_unregister h' _ _ => Nat.eqb h h'
  | _ => false
  end.

(** Any pin or release in the root table, for whichever handle. *)
Definition is_registry (e : event) : bool :=
  match e with
  | E_gr_register _ _ _ _ | E_gr_unregister _ _ _ => true
  | _ => false
  end.

Definition is_callback (e : event) : bool :=
  match e with
  | E_callback _ _ _ => true
  | _ => false
  end.


(** A native init, or start, call that returned a non-negative status. *)
Definition native_init_ok (t : list event) : bool :=
  existsb (fun e =>
             match e with
             | E_uv_fs_poll_init _ _ erg | E_uv_tty_init _ _ _ _ erg => 0 <=? erg
             | _ => false
             end) t.

Definition native_start_ok (t : list event) : bool :=
  existsb (fun e =>
             match e with
             | E_uv_fs_poll_start _ _ _ erg => 0 <=? erg
             | _ => false
             end) t.

(** No value is pinned before enlargement has been requested: [seen] tells
    whether [GR_ROOT_ENLARGE] has been met so far. *)
Fixpoint enlarged_before_pins (seen : bool) (t : list event) : bool :=
  match t with
  | [] => true
  | E_gr_root_enlarge :: t' => enlarged_before_pins true t'
  | E_gr_register _ _ _ _ :: t' => seen && enlarged_before_pins seen t'
  | _ :: t' => enlarged_before_pins seen t'
  end.

(** The trace holds a native init call for handle [h] that succeeded. *)
Definition native_init_succeeded (h : nat) (t : list event) : bool :=
  existsb (fun e =>
             match e with
             | E_uv_fs_poll_init _ h' erg | E_uv_tty_init _ h' _ _ erg =>
                 Nat.eqb h h' && (0 <=? erg)
             | _ => false
             end) t.

(** The [initialized] flag as the spec reads it: in a world, the flag of
    every handle is true exactly when the native init call for that handle
    has succeeded. *)
Definition initialized_tracks_native_init (w : world) : Prop :=
  forall (h : nat) (hd : handle),
    w_heap w !! h = Some hd ->
    initialized hd = native_init_succeeded h (w_trace w).

Fixpoint count_events (p : event -> bool) (t : list event) : nat :=
  match t with
  | [] => 0%nat
  | e :: t' => if p e then S (count_events p t') else count_events p t'
  end.

(** ** Concrete environments, to run the stubs on *)

(** The status codes of the examples: EPERM, ENOENT, ENOMEM, EINVAL, ENOTTY. *)
Definition example_errnos : list Z := [-1; -2; -12; -22; -25].

(** Paths are safe when they hold no NUL byte. *)
Fixpoint no_nul (s : string) : bool :=
  match s with
  | EmptyString => true
  | String c s' => negb (Ascii.eqb c Ascii.zero) && no_nul s'
  end.

(** An environment in which [uv_fs_poll_init], [uv_fs_poll_start],
    [uv_tty_init] and [uv_tty_set_mode] return the given statuses, the loop
    and handle macros resolve their argument, the root table can grow, the
    terminal is 80 by 24, the callback returns unit and assertions are
    enabled. *)
Definition example_env (e_poll_init e_poll_start e_tty_init e_set_mode : Z)
  : environment :=
  Environment example_errnos (-12) no_nul
    (fun _ => 7%nat) (fun _ => inr 7%nat)
    (fun w v =>
       match v with
       | Val_custom b =>
           match w_blocks w !! b with
           | Some p => inr p
           | None => inl Val_unit
           end
       | _ => inl Val_unit
       end)
    (fun _ _ => None)
    (fun _ => true)
    (fun _ _ => e_poll_init) (fun _ _ _ => e_poll_start)
    (fun _ _ _ _ => e_tty_init) (fun _ _ => e_set_mode)
    (fun _ => 0) (fun _ => (0, 80, 24))
    (fun _ _ _ => (Val_unit, false)) false.

(** ** Consistency of the root table *)

(** Field [f] of the live handle at [h] holds slot [i]. *)
Definition holds_slot (heap : gmap nat handle) (h : nat) (f : cb_field)
    (i : nat) : Prop :=
  heap !! h ≫= get_cb f = Some i.

(** The handles and the root table agree: a slot held by a handle is pinned,
    no slot is held twice, and every pinned slot is held by some handle. *)
Definition consistent (heap : gmap nat handle) (roots : list (option value))
  : Prop :=
  (forall h f i, holds_slot heap h f i ->
                 exists x, roots !! i = Some (Some x)) /\
  (forall h1 f1 h2 f2 i, holds_slot heap h1 f1 i -> holds_slot heap h2 f2 i ->
                         h1 = h2 /\ f1 = f2) /\
  (forall i x, roots !! i = Some (Some x) ->
               exists h f, holds_slot heap h f i).

Definition registry_consistent (w : world) : Prop :=
  consistent (w_heap w) (w_roots w).

(** Nothing that was in [w] is disturbed in [w']: every handle, every
    custom block and every pinned value of [w] is in [w'] as it was, and the
    trace of [w'] extends the one of [w]. *)
Definition undisturbed (w w' : world) : Prop :=
  (forall p hd, w_heap w !! p = Some hd -> w_heap w' !! p = Some hd) /\
  (forall b q, w_blocks w !! b = Some q -> w_blocks w' !! b = Some q) /\
  (forall i x, w_roots w !! i = Some (Some x) -> w_roots w' !! i = Some (Some x)) /\
  (exists new, w_trace w' = w_trace w ++ new).

(** What a run that went from [w] to [w'] added to the trace. *)
Definition new_events (w w' : world) : list event :=
  drop (length (w_trace w)) (w_trace w').

(** The environment of the examples, with a [uv_tty_init] that opens
    descriptor 0 and fails with ENOTTY on any other. *)
Definition stdin_only_env : environment :=
  let e := example_env 0 0 0 0 in
  Environment (uv_errnos e) (UV_ENOMEM e) (uwt_is_safe_string e)
    (Uv_loop_val e) (INIT_LOOP_RESULT e) (HANDLE_INIT_NOUNINIT_NA e)
    (HANDLE_NO_UNINIT_CLOSED_WRAP e) (gr_can_grow e)
    (uv_fs_poll_init e) (uv_fs_poll_start e)
    (fun _ _ fd _ => if fd =? 0 then 0 else -25)
    (uv_tty_set_mode e) (uv_tty_reset_mode e) (uv_tty_get_winsize e)
    (caml_callback2_exn e) (NDEBUG e).

(** The environment of the examples, with a root table that cannot grow. *)
Definition full_table_env (e_tty_init : Z) : environment :=
  let e := example_env 0 0 e_tty_init 0 in
  Environment (uv_errnos e) (UV_ENOMEM e) (uwt_is_safe_string e)
    (Uv_loop_val e) (INIT_LOOP_RESULT e) (HANDLE_INIT_NOUNINIT_NA e)
    (HANDLE_NO_UNINIT_CLOSED_WRAP e) (fun _ => false)
    (uv_fs_poll_init e) (uv_fs_poll_start e) (uv_tty_init e)
    (uv_tty_set_mode e) (uv_tty_reset_mode e) (uv_tty_get_winsize e)
    (caml_callback2_exn e) (NDEBUG e).

(** The environment of the examples, with a callback that raises. *)
Definition raising_env : environment :=
  let e := example_env 0 0 0 0 in
  Environment (uv_errnos e) (UV_ENOMEM e) (uwt_is_safe_string e)
    (Uv_loop_val e) (INIT_LOOP_RESULT e) (HANDLE_INIT_NOUNINIT_NA e)
    (HANDLE_NO_UNINIT_CLOSED_WRAP e) (gr_can_grow e)
    (uv_fs_poll_init e) (uv_fs_poll_start e) (uv_tty_init e)
    (uv_tty_set_mode e) (uv_tty_reset_mode e) (uv_tty_get_winsize e)
    (fun _ _ _ => (Val_exception 0, false)) (NDEBUG e).

(** The environment of the examples, with macros that turn every loop and
    every handle down, and with assertions compiled out or not. *)
Definition rejecting_env (ndebug : bool) : environment :=
  let e := example_env 0 0 0 0 in
  Environment (uv_errnos e) (UV_ENOMEM e) (uwt_is_safe_string e)
    (Uv_loop_val e) (fun _ => inl (Val_long 9))
    (fun _ _ => inl (Val_long 9))
    (fun _ _ => Some (Val_long 9)) (gr_can_grow e)
    (uv_fs_poll_init e) (uv_fs_poll_start e) (uv_tty_init e)
    (uv_tty_set_mode e) (uv_tty_reset_mode e) (uv_tty_get_winsize e)
    (caml_callback2_exn e) ndebug.

(** * Proofs *)

(** ** Fresh addresses *)

Lemma new_handle_fresh (w : world) : w_heap w !! new_handle w = None.
Proof.
  unfold new_handle.
  pose proof (is_fresh ({[0%nat]} ∪ dom (w_heap w))) as Hf.
  apply not_elem_of_dom. set_solver.
Qed.

Lemma new_handle_not_null (w : world) : new_handle w ≠ 0%nat.
Proof.
  unfold new_handle.
  pose proof (is_fresh ({[0%nat]} ∪ dom (w_heap w))) as Hf.
  set_solver.
Qed.

Lemma new_block_fresh (w : world) : w_blocks w !! new_block w = None.
Proof.
  unfold new_block. apply not_elem_of_dom, is_fresh.
Qed.

(** ** [uwt_tty_init], run symbolically *)

Section Tty_init_run.

Variable env : environment.
Variables o_loop o_fd o_readable : value.
Variable w : world.

Let l := Uv_loop_val env o_loop.
Let fd := FD_VAL o_fd.
Let readable := Long_val o_readable =? 1.
Let h := new_handle w.
Let v := new_block w.
Let erg := uv_tty_init env l h fd readable.

Lemma uwt_tty_init_enter_run :
  uwt_tty_init_enter env o_loop o_fd o_readable w =
  (Done (l, fd, readable, Block Ok_tag [Val_custom v], Val_custom v, h),
   World (<[h := set_init true (fresh_handle UV_TTY)]> (w_heap w))
         (<[v := h]> (w_blocks w)) (w_roots w)
         (w_trace w ++ [E_handle_create UV_TTY true v h])).
Proof.
  unfold uwt_tty_init_enter, bind, uwt__handle_res_create, Handle_val,
    store_initialized, ret; simpl.
  rewrite lookup_insert_eq; simpl.
  rewrite alter_insert_eq. reflexivity.
Qed.

Lemma uwt_tty_init_run :
  uwt_tty_init env o_loop o_fd o_readable w =
  if erg <? 0 then
    (Done (uwt__alloc_eresult (Val_uwt_error env erg)),
     World (w_heap w) (<[v := 0%nat]> (w_blocks w)) (w_roots w)
           (w_trace w ++ [E_handle_create UV_TTY true v h;
                          E_uv_tty_init l h fd readable erg;
                          E_native_free h]))
  else
    (Done (Block Ok_tag [Val_custom v]),
     World (<[h := set_init true (fresh_handle UV_TTY)]> (w_heap w))
           (<[v := h]> (w_blocks w)) (w_roots w)
           (w_trace w ++ [E_handle_create UV_TTY true v h;
                          E_uv_tty_init l h fd readable erg])).
Proof.
  unfold uwt_tty_init. unfold bind at 1. rewrite uwt_tty_init_enter_run.
  unfold uwt_tty_init_call, call_uv_tty_init, bind, log, ret; simpl.
  fold l fd readable h erg.
  destruct (erg <? 0); simpl.
  - unfold uwt__free_handle, Store_handle_ptr; simpl.
    rewrite delete_insert_id by apply new_handle_fresh.
    rewrite insert_insert_eq, <- !app_assoc. reflexivity.
  - rewrite <- !app_assoc. reflexivity.
Qed.

End Tty_init_run.

(** ** The root table *)

Lemma find_free_lookup (r : list (option value)) (i : nat) :
  find_free r = Some i -> r !! i = Some None.
Proof.
  revert i. induction r as [|[x|] r IH]; intros i Hi; simpl in *.
  - discriminate.
  - destruct (find_free r) as [k|]; simpl in Hi; [|discriminate].
    injection Hi as <-. simpl. apply IH. reflexivity.
  - injection Hi as <-. reflexivity.
Qed.

Lemma find_free_room (r : list (option value)) :
  (0 < count_free r)%nat -> find_free r = Some (next_slot r).
Proof.
  unfold next_slot.
  induction r as [|[x|] r IH]; simpl; intros Hc.
  - lia.
  - rewrite (IH Hc). reflexivity.
  - reflexivity.
Qed.

Lemma count_free_pin (r : list (option value)) (i : nat) (x : value) :
  r !! i = Some None -> S (count_free (<[i := Some x]> r)) = count_free r.
Proof.
  revert i. induction r as [|[y|] r IH]; intros [|i] Hi; simpl in *;
    try discriminate.
  - apply IH, Hi.
  - reflexivity.
  - f_equal. apply IH, Hi.
Qed.

Lemma count_free_grow (r : list (option value)) (n : nat) :
  count_free (r ++ replicate n None) = (count_free r + n)%nat.
Proof.
  induction r as [|[y|] r IH]; simpl.
  - induction n as [|n IHn]; simpl; [reflexivity | now rewrite IHn].
  - apply IH.
  - now rewrite IH.
Qed.

(** Two free slots are two distinct slots. *)
Lemma next_slot_twice (r : list (option value)) (x : value) :
  (2 <= count_free r)%nat ->
  let i := next_slot r in
  let j := next_slot (<[i := Some x]> r) in
  find_free r = Some i /\ find_free (<[i := Some x]> r) = Some j /\ i <> j.
Proof.
  intros Hc i j.
  assert (Hi : find_free r = Some i) by (apply find_free_room; lia).
  pose proof (find_free_lookup _ _ Hi) as Hli.
  pose proof (count_free_pin _ _ x Hli) as Hp.
  assert (Hj : find_free (<[i := Some x]> r) = Some j)
    by (apply find_free_room; lia).
  split; [exact Hi|]. split; [exact Hj|].
  intros Heq. apply find_free_lookup in Hj. rewrite <- Heq in Hj.
  rewrite list_lookup_insert_eq in Hj by (eapply lookup_lt_Some; exact Hli).
  discriminate.
Qed.

(** What a successful [GR_ROOT_ENLARGE] leaves behind. *)
Lemma GR_ROOT_ENLARGE_room (env : environment) (w w1 : world) :
  GR_ROOT_ENLARGE env w = (Done None, w1) ->
  (2 <= count_free (w_roots w1))%nat /\
  w_heap w1 = w_heap w /\ w_blocks w1 = w_blocks w /\
  w_trace w1 = w_trace w ++ [E_gr_root_enlarge] /\
  (forall i x, w_roots w !! i = Some (Some x) -> w_roots w1 !! i = Some (Some x)).
Proof.
  unfold GR_ROOT_ENLARGE.
  destruct (2 <=? count_free (w_roots w))%nat eqn:Hroom.
  - intros [= <-]; simpl. apply Nat.leb_le in Hroom. auto.
  - destruct (gr_can_grow env (length (w_roots w))); intros [= <-]; simpl.
    rewrite count_free_grow. repeat split; try lia.
    intros i x Hi. rewrite lookup_app_l; [exact Hi|].
    eapply lookup_lt_Some; exact Hi.
Qed.

Lemma GR_ROOT_ENLARGE_full (env : environment) (w w1 : world) (r : value) :
  GR_ROOT_ENLARGE env w = (Done (Some r), w1) ->
  r = uwt__alloc_eresult (Val_uwt_error env (UV_ENOMEM env)) /\
  w1 = World (w_heap w) (w_blocks w) (w_roots w) (w_trace w ++ [E_gr_root_enlarge]).
Proof.
  unfold GR_ROOT_ENLARGE.
  destruct (2 <=? count_free (w_roots w))%nat; [discriminate|].
  destruct (gr_can_grow env (length (w_roots w))); [discriminate|].
  intros [= <- <-]. auto.
Qed.

(** ** [uwt_fs_poll_start], run symbolically *)

Section Start_reaches_native.

Variable env : environment.
Variables o_loop o_path o_interval o_cb : value.
Variables w w1 : world.
Variable l : nat.
Variable interval : Z.

(** The arguments pass the four checks of lines 61 to 68 and the root table
    has room. *)
Hypothesis Hsafe : uwt_is_safe_string env (String_val o_path) = true.
Hypothesis Hnonempty : Ascii.eqb (String_val_0 o_path) Ascii.zero = false.
Hypothesis Hinterval : UINT_VAL_RET_WRAP_EINVAL o_interval = inr interval.
Hypothesis Hloop : INIT_LOOP_RESULT env o_loop = inr l.
Hypothesis Henlarge : GR_ROOT_ENLARGE env w = (Done None, w1).

Let h := new_handle w1.
Let v := new_block w1.
Let path := String_val o_path.
Let erg_init := uv_fs_poll_init env l h.
Let erg_start := uv_fs_poll_start env h path interval.
Let i := next_slot (w_roots w1).
Let j := next_slot (<[i := Some o_cb]> (w_roots w1)).

Lemma uwt_fs_poll_start_run :
  uwt_fs_poll_start env o_loop o_path o_interval o_cb w =
  if erg_init <? 0 then
    (Done (uwt__alloc_eresult (Val_uwt_error env erg_init)),
     World (w_heap w1) (<[v := 0%nat]> (w_blocks w1)) (w_roots w1)
           (w_trace w1 ++ [E_handle_create UV_FS_POLL false v h;
                           E_uv_fs_poll_init l h erg_init;
                           E_native_free h]))
  else if erg_start <? 0 then
    (Done (uwt__alloc_eresult (Val_uwt_error env erg_start)),
     World (<[h := set_closed true (fresh_handle UV_FS_POLL)]> (w_heap w1))
           (<[v := 0%nat]> (w_blocks w1)) (w_roots w1)
           (w_trace w1 ++ [E_handle_create UV_FS_POLL false v h;
                           E_uv_fs_poll_init l h erg_init;
                           E_uv_fs_poll_start h path interval erg_start;
                           E_uv_close h;
                           E_native_free h]))
  else
    (Done (Block Ok_tag [Val_custom v]),
     World (<[h := Handle UV_FS_POLL false false (Some i) (Some j)]> (w_heap w1))
           (<[v := h]> (w_blocks w1))
           (<[j := Some (Val_custom v)]> (<[i := Some o_cb]> (w_roots w1)))
           (w_trace w1 ++ [E_handle_create UV_FS_POLL false v h;
                           E_uv_fs_poll_init l h erg_init;
                           E_uv_fs_poll_start h path interval erg_start;
                           E_gr_register h Cb_read i o_cb;
                           E_gr_register h Cb_listen j (Val_custom v)])).
Proof.
  unfold uwt_fs_poll_start.
  rewrite Hsafe, Hnonempty, Hinterval, Hloop. simpl.
  unfold bind at 1. rewrite Henlarge.
  unfold bind, uwt__handle_res_create, Handle_val, call_uv_fs_poll_init,
    log, ret; simpl.
  rewrite lookup_insert_eq; simpl.
  fold h v erg_init.
  destruct (erg_init <? 0) eqn:Hinit; simpl.
  - rewrite Hinit. unfold Store_handle_ptr; simpl.
    rewrite delete_insert_id by apply new_handle_fresh.
    rewrite insert_insert_eq, <- !app_assoc. reflexivity.
  - unfold call_uv_fs_poll_start, bind, log, ret; simpl.
    fold path erg_start.
    destruct (erg_start <? 0) eqn:Hstart; simpl.
    + unfold uwt__handle_finalize_close; simpl.
      rewrite lookup_insert_eq; simpl.
      unfold bind, log, uwt__gr_unregister, mark_closed; simpl.
      repeat (rewrite lookup_insert_eq; simpl).
      rewrite Hstart. unfold Store_handle_ptr; simpl.
      rewrite alter_insert_eq, insert_insert_eq, <- !app_assoc. reflexivity.
    + destruct (GR_ROOT_ENLARGE_room _ _ _ Henlarge) as [Hroom _].
      destruct (next_slot_twice (w_roots w1) o_cb Hroom) as (Hi & Hj & _).
      fold i in Hi, Hj. fold j in Hj.
      unfold uwt__gr_register; simpl. rewrite Hi; simpl. rewrite Hj; simpl.
      rewrite Hstart.
      rewrite !alter_insert_eq, <- !app_assoc. reflexivity.
Qed.


End Start_reaches_native.

(** C1: two-phase teardown.  Once [uwt_fs_poll_start] has passed its checks
    and the root table has room, what it does after [uv_fs_poll_init] is a
    function of how far initialization got.  If the native init status is
    negative, the native struct is freed at once: the free routine is the
    only call that follows, with no close and no pin or release in the root
    table, and [Error(Val_uwt_error status)] is returned.  If init succeeded
    and the native start status is negative, the handle goes through the
    close sequence ([uv_close], then the free of the native struct) and
    [Error(Val_uwt_error status)] is returned.  The root table is as it was
    in both cases, and on every path the free routine runs at most once.
    [uwt_tty_init], whatever its arguments and whatever the state of the
    root table, has the init phase only and takes the free path in the same
    way; the descriptor it hands to [uv_tty_init] is the C [int] of line
    28. *)
Theorem two_phase_teardown (env : environment)
    (o_loop o_path o_interval o_cb o_fd o_readable : value) (w : world) :
  (forall (l : nat) (interval : Z),
     uwt_is_safe_string env (String_val o_path) = true ->
     Ascii.eqb (String_val_0 o_path) Ascii.zero = false ->
     UINT_VAL_RET_WRAP_EINVAL o_interval = inr interval ->
     INIT_LOOP_RESULT env o_loop = inr l ->
     fst (GR_ROOT_ENLARGE env w) = Done None ->
     let w1 := snd (GR_ROOT_ENLARGE env w) in
     let h := new_handle w1 in
     let v := new_block w1 in
     let path := String_val o_path in
     let erg_init := uv_fs_poll_init env l h in
     let erg_start := uv_fs_poll_start env h path interval in
     let i := next_slot (w_roots w1) in
     let j := next_slot (<[i := Some o_cb]> (w_roots w1)) in
     let r := uwt_fs_poll_start env o_loop o_path o_interval o_cb w in
     let new := drop (length (w_trace w1)) (w_trace (snd r)) in
     let failed := (erg_init <? 0) || (erg_start <? 0) in
     fst r =
       Done (if erg_init <? 0
             then uwt__alloc_eresult (Val_uwt_error env erg_init)
             else if erg_start <? 0
             then uwt__alloc_eresult (Val_uwt_error env erg_start)
             else Block Ok_tag [Val_custom v]) /\
     w_trace (snd r) = w_trace w1 ++ new /\
     new =
       E_handle_create UV_FS_POLL false v h ::
       E_uv_fs_poll_init l h erg_init ::
       (if erg_init <? 0 then [E_native_free h]
        else E_uv_fs_poll_start h path interval erg_start ::
             (if erg_start <? 0 then [E_uv_close h; E_native_free h]
              else [E_gr_register h Cb_read i o_cb;
                    E_gr_register h Cb_listen j (Val_custom v)])) /\
     count_events (is_uv_close h) new =
       (if erg_init <? 0 then 0%nat
        else if erg_start <? 0 then 1%nat else 0%nat) /\
     count_events is_registry new = (if failed then 0%nat else 2%nat) /\
     w_roots (snd r) =
       (if failed then w_roots w1
        else <[j := Some (Val_custom v)]> (<[i := Some o_cb]> (w_roots w1))) /\
     closed <$> w_heap (snd r) !! h =
       (if erg_init <? 0 then None else Some (erg_start <? 0)) /\
     count_events (is_native_free h) new = (if failed then 1%nat else 0%nat) /\
     (count_events (is_native_free h) new <= 1)%nat) /\
  (let r' := uwt_tty_init env o_loop o_fd o_readable w in
   let new' := drop (length (w_trace w)) (w_trace (snd r')) in
   let h' := new_handle w in
   let fd := FD_VAL o_fd in
   let erg' :=
     uv_tty_init env (Uv_loop_val env o_loop) h' fd
       (Long_val o_readable =? 1) in
   -2147483648 <= fd < 2147483648 /\
   fst r' =
     Done (if erg' <? 0 then uwt__alloc_eresult (Val_uwt_error env erg')
           else Block Ok_tag [Val_custom (new_block w)]) /\
   w_trace (snd r') = w_trace w ++ new' /\
   new' =
     E_handle_create UV_TTY true (new_block w) h' ::
     E_uv_tty_init (Uv_loop_val env o_loop) h' fd
       (Long_val o_readable =? 1) erg' ::
     (if erg' <? 0 then [E_native_free h'] else []) /\
   count_events (is_uv_close h') new' = 0%nat /\
   count_events is_registry new' = 0%nat /\
   w_roots (snd r') = w_roots w /\
   w_heap (snd r') !! h' =
     (if erg' <? 0 then None else Some (set_init true (fresh_handle UV_TTY))) /\
   count_events (is_native_free h') new' = (if erg' <? 0 then 1%nat else 0%nat) /\
   (count_events (is_native_free h') new' <= 1)%nat).
Proof.
  split.
  - intros l interval Hsafe Hnonempty Hinterval Hloop Henlarge.
    cbv zeta.
    assert (Hg : GR_ROOT_ENLARGE env w =
                 (Done None, snd (GR_ROOT_ENLARGE env w)))
      by (rewrite <- Henlarge; apply surjective_pairing).
    rewrite (uwt_fs_poll_start_run env o_loop o_path o_interval o_cb w _
               l interval Hsafe Hnonempty Hinterval Hloop Hg).
    pose proof (new_handle_fresh (snd (GR_ROOT_ENLARGE env w))) as Hfresh.
    destruct (uv_fs_poll_init env l _ <? 0);
      [|destruct (uv_fs_poll_start env _ _ interval <? 0)]; simpl;
      rewrite drop_app_length; simpl;
      rewrite ?Nat.eqb_refl, ?lookup_insert_eq, ?Hfresh;
      repeat split; auto.
  - cbv zeta. rewrite uwt_tty_init_run.
    pose proof (new_handle_fresh w) as Hfresh'.
    assert (Hfd : -2147483648 <= FD_VAL o_fd < 2147483648).
    { unfold FD_VAL, int_of_long.
      pose proof (Z.mod_pos_bound (Long_val o_fd + 2147483648) 4294967296).
      lia. }
    destruct (_ <? 0); simpl; rewrite drop_app_length; simpl;
      rewrite ?Nat.eqb_refl, ?lookup_insert_eq, ?Hfresh';
      repeat split; auto; lia.
Qed.

Lemma two_phase_teardown_witness :
  (* init fails: the free path *)
  (fst (uwt_fs_poll_start (example_env (-22) 0 (-25) 0) Val_unit
          (Val_string "/tmp/watched") (Val_long 100) (Val_closure 1)
          empty_world)
   = Done (Block Error_tag [Val_error (UWT_ERRNO 3)]) /\
   w_trace (snd (uwt_fs_poll_start (example_env (-22) 0 (-25) 0) Val_unit
                   (Val_string "/tmp/watched") (Val_long 100) (Val_closure 1)
                   empty_world))
   = [E_gr_root_enlarge; E_handle_create UV_FS_POLL false 0 1;
      E_uv_fs_poll_init 7 1 (-22); E_native_free 1]) /\
  (* init succeeds and start fails: the close path *)
  (fst (uwt_fs_poll_start (example_env 0 (-22) 0 0) Val_unit
          (Val_string "/tmp/watched") (Val_long 100) (Val_closure 1)
          empty_world)
   = Done (Block Error_tag [Val_error (UWT_ERRNO 3)]) /\
   w_trace (snd (uwt_fs_poll_start (example_env 0 (-22) 0 0) Val_unit
                   (Val_string "/tmp/watched") (Val_long 100) (Val_closure 1)
                   empty_world))
   = [E_gr_root_enlarge; E_handle_create UV_FS_POLL false 0 1;
      E_uv_fs_poll_init 7 1 0; E_uv_fs_poll_start 1 "/tmp/watched" 100 (-22);
      E_uv_close 1; E_native_free 1] /\
   closed <$> w_heap (snd (uwt_fs_poll_start (example_env 0 (-22) 0 0)
                             Val_unit (Val_string "/tmp/watched")
                             (Val_long 100) (Val_closure 1) empty_world))
              !! 1%nat
   = Some true) /\
  (* the terminal, with a root table that is full and cannot grow, and a
     descriptor beyond 32 bits *)
  (fst (uwt_tty_init (full_table_env (-25)) Val_unit (Val_long 4294967298)
          (Val_long 1) empty_world)
   = Done (Block Error_tag [Val_error (UWT_ERRNO 4)]) /\
   w_trace (snd (uwt_tty_init (full_table_env (-25)) Val_unit
                   (Val_long 4294967298) (Val_long 1) empty_world))
   = [E_handle_create UV_TTY true 0 1; E_uv_tty_init 7 1 2 true (-25);
      E_native_free 1]).
Proof.
  destruct (two_phase_teardown (example_env (-22) 0 (-25) 0) Val_unit
              (Val_string "/tmp/watched") (Val_long 100) (Val_closure 1)
              (Val_long 0) (Val_long 1) empty_world) as [F _].
  specialize (F 7%nat 100 eq_refl eq_refl eq_refl eq_refl eq_refl).
  cbv zeta in F. destruct F as (F1 & F2 & _).
  destruct (two_phase_teardown (example_env 0 (-22) 0 0) Val_unit
              (Val_string "/tmp/watched") (Val_long 100) (Val_closure 1)
              (Val_long 0) (Val_long 1) empty_world) as [C _].
  specialize (C 7%nat 100 eq_refl eq_refl eq_refl eq_refl eq_refl).
  cbv zeta in C. destruct C as (C1 & C2 & _ & _ & _ & _ & C7 & _).
  destruct (two_phase_teardown (full_table_env (-25)) Val_unit
              (Val_string "/tmp/watched") (Val_long 100) (Val_closure 1)
              (Val_long 4294967298) (Val_long 1) empty_world) as [_ T].
  cbv zeta in T. destruct T as (_ & T1 & T2 & _).
  split; [split; [exact F1 | exact F2] |].
  split; [split; [exact C1 | split; [exact C2 | exact C7]] |].
  split; [exact T1 | exact T2].
Defined.

(** ** Every way through [uwt_fs_poll_start] *)

(** The function leaves before it has touched anything, or it leaves at
    [GR_ROOT_ENLARGE] because the root table cannot grow, or it reaches the
    native calls. *)
Lemma uwt_fs_poll_start_cases (env : environment)
    (o_loop o_path o_interval o_cb : value) (w : world) :
  (exists r, uwt_fs_poll_start env o_loop o_path o_interval o_cb w = (Done r, w)) \/
  (fst (GR_ROOT_ENLARGE env w) <> Done None /\
   uwt_fs_poll_start env o_loop o_path o_interval o_cb w =
   (Done (uwt__alloc_eresult (Val_uwt_error env (UV_ENOMEM env))),
    World (w_heap w) (w_blocks w) (w_roots w) (w_trace w ++ [E_gr_root_enlarge]))) \/
  (exists l interval,
     uwt_is_safe_string env (String_val o_path) = true /\
     Ascii.eqb (String_val_0 o_path) Ascii.zero = false /\
     UINT_VAL_RET_WRAP_EINVAL o_interval = inr interval /\
     INIT_LOOP_RESULT env o_loop = inr l /\
     GR_ROOT_ENLARGE env w = (Done None, snd (GR_ROOT_ENLARGE env w))).
Proof.
  unfold uwt_fs_poll_start.
  destruct (uwt_is_safe_string env (String_val o_path)); simpl;
    [|left; eexists; reflexivity].
  destruct (Ascii.eqb (String_val_0 o_path) Ascii.zero);
    [left; eexists; reflexivity|].
  destruct (UINT_VAL_RET_WRAP_EINVAL o_interval) as [r|interval];
    [left; eexists; reflexivity|].
  destruct (INIT_LOOP_RESULT env o_loop) as [r|l];
    [left; eexists; reflexivity|].
  right. unfold bind at 1.
  destruct (GR_ROOT_ENLARGE env w) as [[[r|]|] w1] eqn:Hg.
  - left. apply GR_ROOT_ENLARGE_full in Hg as [-> ->].
    split; [discriminate | reflexivity].
  - right. exists l, interval. auto.
  - exfalso. unfold GR_ROOT_ENLARGE in Hg.
    destruct (2 <=? _)%nat; [discriminate|].
    destruct (gr_can_grow _ _); discriminate.
Qed.

Lemma new_handle_heap (w w1 : world) :
  w_heap w1 = w_heap w -> new_handle w1 = new_handle w.
Proof. unfold new_handle. now intros ->. Qed.

Lemma new_block_blocks (w w1 : world) :
  w_blocks w1 = w_blocks w -> new_block w1 = new_block w.
Proof. unfold new_block. now intros ->. Qed.

(** Closing a handle that is not there does nothing. *)
Lemma finalize_close_gone (h : nat) (w : world) :
  w_heap w !! h = None -> uwt__handle_finalize_close h w = (Done tt, w).
Proof. unfold uwt__handle_finalize_close. now intros ->. Qed.

(** With two free slots, two registrations in a row pin both values, in
    distinct slots. *)
Lemma pins_both (r : list (option value)) (x y : value) :
  (2 <= count_free r)%nat ->
  let i := next_slot r in
  let j := next_slot (<[i := Some x]> r) in
  i <> j /\
  <[j := Some y]> (<[i := Some x]> r) !! i = Some (Some x) /\
  <[j := Some y]> (<[i := Some x]> r) !! j = Some (Some y).
Proof.
  intros Hc i j.
  destruct (next_slot_twice r x Hc) as (Hi & Hj & Hne). fold i in Hi, Hj, Hne.
  fold j in Hj, Hne.
  apply find_free_lookup in Hi, Hj.
  split; [exact Hne|]. split.
  - rewrite list_lookup_insert_ne by auto.
    apply list_lookup_insert_eq. eapply lookup_lt_Some; exact Hi.
  - apply list_lookup_insert_eq. eapply lookup_lt_Some; exact Hj.
Qed.

(** Releasing two slots that were free before they were pinned gives the
    table back. *)
Lemma release_pins (r : list (option value)) (i j : nat) (x y : value) :
  r !! i = Some None ->
  r !! j = Some None ->
  <[j := None]> (<[i := None]> (<[j := Some y]> (<[i := Some x]> r))) = r.
Proof.
  intros Hi Hj. apply list_eq. intros k.
  destruct (decide (k = j)) as [->|Hkj].
  - rewrite list_lookup_insert_eq; [now rewrite Hj|].
    rewrite !length_insert. eapply lookup_lt_Some; exact Hj.
  - rewrite list_lookup_insert_ne by auto.
    destruct (decide (k = i)) as [->|Hki].
    + rewrite list_lookup_insert_eq; [now rewrite Hi|].
      rewrite !length_insert. eapply lookup_lt_Some; exact Hi.
    + now rewrite !list_lookup_insert_ne by auto.
Qed.

(** C2: registration cardinality.  Whatever its arguments,
    [uwt_fs_poll_start] pins values in the root table when, and only when,
    its checks pass, the root table has room and both [uv_fs_poll_init] and
    [uv_fs_poll_start] return a non-negative status.  Then it returns [Ok],
    it has made both native calls, and it pins exactly two values in two
    distinct slots that were free: the user callback through [cb_read] and
    the handle's own value through [cb_listen].  On every other path it pins
    none, never one, and the root table holds what it held.  When the handle
    is then closed, the close sequence releases as many entries as were
    pinned for it (none or two), and the root table is as it was before the
    pins. *)
Theorem registration_cardinality (env : environment)
    (o_loop o_path o_interval o_cb : value) (w : world) :
  let r := uwt_fs_poll_start env o_loop o_path o_interval o_cb w in
  let w1 := snd (GR_ROOT_ENLARGE env w) in
  let h := new_handle w in
  let v := new_block w in
  let path := String_val o_path in
  let i := next_slot (w_roots w1) in
  let j := next_slot (<[i := Some o_cb]> (w_roots w1)) in
  let after := snd (uwt__handle_finalize_close h (snd r)) in
  let new := new_events w (snd r) in
  let closing := new_events (snd r) after in
  let two := [E_gr_register h Cb_read i o_cb;
              E_gr_register h Cb_listen j (Val_custom v)] in
  let both_succeed (l : nat) (interval : Z) : Prop :=
    uwt_is_safe_string env path = true /\
    Ascii.eqb (String_val_0 o_path) Ascii.zero = false /\
    UINT_VAL_RET_WRAP_EINVAL o_interval = inr interval /\
    INIT_LOOP_RESULT env o_loop = inr l /\
    fst (GR_ROOT_ENLARGE env w) = Done None /\
    0 <= uv_fs_poll_init env l h /\
    0 <= uv_fs_poll_start env h path interval in
  w_trace (snd r) = w_trace w ++ new /\
  w_trace after = w_trace (snd r) ++ closing /\
  (forall (l : nat) (interval : Z),
     both_succeed l interval ->
     fst r = Done (Block Ok_tag [Val_custom v]) /\
     new =
       [E_gr_root_enlarge;
        E_handle_create UV_FS_POLL false v h;
        E_uv_fs_poll_init l h (uv_fs_poll_init env l h);
        E_uv_fs_poll_start h path interval
          (uv_fs_poll_start env h path interval)] ++ two /\
     i <> j /\
     w_roots w1 !! i = Some None /\
     w_roots w1 !! j = Some None /\
     w_roots (snd r) = <[j := Some (Val_custom v)]> (<[i := Some o_cb]> (w_roots w1)) /\
     w_roots (snd r) !! i = Some (Some o_cb) /\
     w_roots (snd r) !! j = Some (Some (Val_custom v)) /\
     w_heap (snd r) !! h =
       Some (Handle UV_FS_POLL false false (Some i) (Some j)) /\
     closing =
       [E_uv_close h; E_gr_unregister h Cb_read i;
        E_gr_unregister h Cb_listen j; E_native_free h] /\
     w_roots after = w_roots w1) /\
  ((forall (l : nat) (interval : Z), ~ both_succeed l interval) ->
     List.filter is_registry new = [] /\
     closing = [] /\
     (w_roots (snd r) = w_roots w \/ w_roots (snd r) = w_roots w1) /\
     w_heap (snd r) !! h ≫= get_cb Cb_read = None /\
     w_heap (snd r) !! h ≫= get_cb Cb_listen = None) /\
  (List.filter is_registry new = [] \/ List.filter is_registry new = two) /\
  (count_events (is_register h) new = 0%nat \/
   count_events (is_register h) new = 2%nat) /\
  count_events (is_register h) closing = 0%nat /\
  count_events (is_unregister h) (new ++ closing) =
    count_events (is_register h) new /\
  (w_heap after !! h = None \/ closed <$> w_heap after !! h = Some true).
Proof.
  intros r w1 h v path i j after new closing two both_succeed.
  pose proof (new_handle_fresh w) as Hfresh. fold h in Hfresh.
  destruct (uwt_fs_poll_start_cases env o_loop o_path o_interval o_cb w)
    as [[r0 Hr] | [[Hfull Hr] | (l & interval & Hs & Hn & Hi & Hl & Hg)]].
  - (* left before anything was touched *)
    assert (Hno : forall l interval, ~ both_succeed l interval).
    { intros l interval (Hs & Hn & Hi & Hl & Hg & _).
      assert (Hg' : GR_ROOT_ENLARGE env w = (Done None, w1))
        by (rewrite <- Hg; apply surjective_pairing).
      pose proof (uwt_fs_poll_start_run env o_loop o_path o_interval o_cb
                    w w1 l interval Hs Hn Hi Hl Hg') as Hrun.
      cbv zeta in Hrun. rewrite Hr in Hrun.
      destruct (GR_ROOT_ENLARGE_room _ _ _ Hg') as (_ & _ & _ & Ht & _).
      apply (f_equal (fun p => length (w_trace (snd p)))) in Hrun.
      revert Hrun.
      destruct (_ <? 0); [|destruct (_ <? 0)]; simpl;
        rewrite Ht, !length_app; simpl; lia. }
    subst after closing new r. rewrite Hr; simpl.
    rewrite finalize_close_gone by exact Hfresh.
    unfold new_events. simpl. rewrite drop_all, app_nil_r, Hfresh. simpl.
    split; [reflexivity|]. split; [reflexivity|].
    split; [intros l' interval' Hb; exfalso; exact (Hno l' interval' Hb)|].
    split; [intros _; repeat split; auto|].
    repeat split; auto.
  - (* the root table could not grow *)
    assert (Hno : forall l interval, ~ both_succeed l interval).
    { intros l interval (_ & _ & _ & _ & Hg & _). exact (Hfull Hg). }
    subst after closing new r. rewrite Hr; simpl.
    rewrite finalize_close_gone by exact Hfresh.
    unfold new_events. simpl. rewrite drop_all, drop_app_length, app_nil_r, Hfresh. simpl.
    split; [reflexivity|]. split; [reflexivity|].
    split; [intros l' interval' Hb; exfalso; exact (Hno l' interval' Hb)|].
    split; [intros _; repeat split; auto|].
    repeat split; auto.
  - (* the native calls were reached *)
    fold w1 in Hg.
    destruct (GR_ROOT_ENLARGE_room _ _ _ Hg)
      as (Hroom & Hheap & Hblocks & Htrace & _).
    pose proof (uwt_fs_poll_start_run env o_loop o_path o_interval o_cb
                  w w1 l interval Hs Hn Hi Hl Hg) as Hrun.
    cbv zeta in Hrun.
    rewrite (new_handle_heap _ _ Hheap), (new_block_blocks _ _ Hblocks) in Hrun.
    fold h v i j path in Hrun.
    assert (Hsame : forall l' interval',
               both_succeed l' interval' ->
               l' = l /\ interval' = interval /\
               0 <= uv_fs_poll_init env l h /\
               0 <= uv_fs_poll_start env h path interval).
    { intros l' interval' (_ & _ & Hi' & Hl' & _ & H1 & H2).
      rewrite Hi in Hi'. rewrite Hl in Hl'.
      injection Hi' as <-. injection Hl' as <-. auto. }
    destruct (next_slot_twice (w_roots w1) o_cb Hroom) as (Hfi & Hfj & Hne).
    fold i in Hfi, Hfj, Hne. fold j in Hfj, Hne.
    pose proof (find_free_lookup _ _ Hfi) as Hli.
    pose proof (find_free_lookup _ _ Hfj) as Hlj.
    rewrite list_lookup_insert_ne in Hlj by auto.
    destruct (pins_both (w_roots w1) o_cb (Val_custom v) Hroom)
      as (_ & Hpi & Hpj).
    fold i in Hpi, Hpj. fold j in Hpi, Hpj.
    subst after closing new r. rewrite Hrun. clear Hrun.
    destruct (uv_fs_poll_init env l h <? 0) eqn:Hinit;
      [|destruct (uv_fs_poll_start env h path interval <? 0) eqn:Hstart].
    + assert (Hno : forall l interval, ~ both_succeed l interval).
      { intros l' interval' Hb. apply Hsame in Hb as (_ & _ & H1 & _).
        apply Z.ltb_lt in Hinit. lia. }
      rewrite finalize_close_gone
        by (simpl; rewrite Hheap; exact Hfresh).
      unfold new_events. simpl.
      rewrite Htrace, drop_all, app_nil_r, <- app_assoc, drop_app_length, Hheap, Hfresh.
      simpl.
      split; [reflexivity|]. split; [reflexivity|].
      split; [intros l' interval' Hb; exfalso; exact (Hno l' interval' Hb)|].
      split; [intros _; repeat split; auto|].
      repeat split; auto.
    + assert (Hno : forall l interval, ~ both_succeed l interval).
      { intros l' interval' Hb. apply Hsame in Hb as (_ & _ & _ & H2).
        apply Z.ltb_lt in Hstart. lia. }
      unfold uwt__handle_finalize_close; simpl.
      rewrite lookup_insert_eq; simpl.
      unfold new_events. simpl.
      rewrite Htrace, drop_all, app_nil_r, <- app_assoc, drop_app_length.
      rewrite lookup_insert_eq. simpl.
      split; [reflexivity|]. split; [reflexivity|].
      split; [intros l' interval' Hb; exfalso; exact (Hno l' interval' Hb)|].
      split; [intros _; repeat split; auto|].
      repeat split; auto.
    + assert (Hyes : both_succeed l interval).
      { apply Z.ltb_ge in Hinit, Hstart. unfold both_succeed. rewrite Hg.
        repeat split; auto. }
      unfold uwt__handle_finalize_close; simpl.
      rewrite lookup_insert_eq; simpl.
      unfold bind, log, uwt__gr_unregister, mark_closed; simpl.
      repeat (rewrite ?alter_insert_eq, ?lookup_insert_eq; simpl).
      unfold new_events. simpl.
      match goal with
      | |- context [w_trace w1 ++ ?L] => set (X := w_trace w1 ++ L)
      end.
      rewrite <- !(app_assoc X), (drop_app_length X). simpl. subst X.
      rewrite Htrace, <- !app_assoc, drop_app_length. simpl.
      rewrite !Nat.eqb_refl. simpl.
      rewrite release_pins by assumption.
      split; [reflexivity|]. split; [reflexivity|].
      split.
      { intros l' interval' Hb. apply Hsame in Hb as (-> & -> & _).
        repeat split; auto. }
      split.
      { intros Hno. exfalso. exact (Hno l interval Hyes). }
      repeat split; auto.
Qed.

Lemma registration_cardinality_witness :
  (* both native calls succeed: two pins, and two releases at the close *)
  (fst (uwt_fs_poll_start (example_env 0 0 0 0) Val_unit
          (Val_string "/tmp/watched") (Val_long 100) (Val_closure 1)
          empty_world)
   = Done (Block Ok_tag [Val_custom 0]) /\
   new_events empty_world
     (snd (uwt_fs_poll_start (example_env 0 0 0 0) Val_unit
             (Val_string "/tmp/watched") (Val_long 100) (Val_closure 1)
             empty_world))
   = [E_gr_root_enlarge; E_handle_create UV_FS_POLL false 0 1;
      E_uv_fs_poll_init 7 1 0; E_uv_fs_poll_start 1 "/tmp/watched" 100 0;
      E_gr_register 1 Cb_read 0 (Val_closure 1);
      E_gr_register 1 Cb_listen 1 (Val_custom 0)] /\
   new_events
     (snd (uwt_fs_poll_start (example_env 0 0 0 0) Val_unit
             (Val_string "/tmp/watched") (Val_long 100) (Val_closure 1)
             empty_world))
     (snd (uwt__handle_finalize_close 1
             (snd (uwt_fs_poll_start (example_env 0 0 0 0) Val_unit
                     (Val_string "/tmp/watched") (Val_long 100)
                     (Val_closure 1) empty_world))))
   = [E_uv_close 1; E_gr_unregister 1 Cb_read 0;
      E_gr_unregister 1 Cb_listen 1; E_native_free 1]) /\
  (* the native start fails: nothing is pinned, nothing is released *)
  (List.filter is_registry
     (new_events empty_world
        (snd (uwt_fs_poll_start (example_env 0 (-22) 0 0) Val_unit
                (Val_string "/tmp/watched") (Val_long 100) (Val_closure 1)
                empty_world)))
   = [] /\
   new_events
     (snd (uwt_fs_poll_start (example_env 0 (-22) 0 0) Val_unit
             (Val_string "/tmp/watched") (Val_long 100) (Val_closure 1)
             empty_world))
     (snd (uwt__handle_finalize_close 1
             (snd (uwt_fs_poll_start (example_env 0 (-22) 0 0) Val_unit
                     (Val_string "/tmp/watched") (Val_long 100)
                     (Val_closure 1) empty_world))))
   = []).
Proof.
  pose proof (registration_cardinality (example_env 0 0 0 0) Val_unit
                (Val_string "/tmp/watched") (Val_long 100) (Val_closure 1)
                empty_world) as Y.
  cbv beta zeta in Y. destruct Y as (_ & _ & Y & _).
  destruct (Y 7%nat 100) as (Y1 & Y2 & _ & _ & _ & _ & _ & _ & _ & Y3 & _).
  { repeat split; try reflexivity; vm_compute; discriminate. }
  pose proof (registration_cardinality (example_env 0 (-22) 0 0) Val_unit
                (Val_string "/tmp/watched") (Val_long 100) (Val_closure 1)
                empty_world) as N.
  cbv beta zeta in N. destruct N as (_ & _ & _ & N & _).
  destruct N as (N1 & N2 & _).
  { intros l interval (_ & _ & _ & _ & _ & _ & H).
    apply H. reflexivity. }
  split; [split; [exact Y1 | split; [exact Y2 | exact Y3]] |].
  split; [exact N1 | exact N2].
Defined.

(** C8: enlarge before pin.  In every run of [uwt_fs_poll_start] the trace
    only grows, and no value is pinned in the root table before
    [GR_ROOT_ENLARGE] has been requested in that same run.  When the table
    cannot grow, the run ends with nothing pinned and no handle created.
    When the native start call succeeded, the two registrations that follow
    both take effect: the handle holds two distinct slots, with the user
    callback pinned in the one of [cb_read] and the handle's value in the
    one of [cb_listen]. *)
Theorem enlarge_before_pin (env : environment)
    (o_loop o_path o_interval o_cb : value) (w : world) :
  let r := uwt_fs_poll_start env o_loop o_path o_interval o_cb w in
  let new := drop (length (w_trace w)) (w_trace (snd r)) in
  let w1 := snd (GR_ROOT_ENLARGE env w) in
  let h := new_handle w in
  let v := new_block w in
  let i := next_slot (w_roots w1) in
  let j := next_slot (<[i := Some o_cb]> (w_roots w1)) in
  w_trace (snd r) = w_trace w ++ new /\
  enlarged_before_pins false new = true /\
  (fst (GR_ROOT_ENLARGE env w) = Done None \/
   (count_events is_registry new = 0%nat /\
    w_roots (snd r) = w_roots w /\ w_heap (snd r) = w_heap w)) /\
  (native_start_ok new = true ->
   count_events (is_register h) new = 2%nat /\
   w_heap (snd r) !! h = Some (Handle UV_FS_POLL false false (Some i) (Some j)) /\
   i <> j /\
   w_roots (snd r) !! i = Some (Some o_cb) /\
   w_roots (snd r) !! j = Some (Some (Val_custom v))).
Proof.
  intros r new w1 h v i j.
  destruct (uwt_fs_poll_start_cases env o_loop o_path o_interval o_cb w)
    as [[r0 Hr] | [[Hfull Hr] | (l & interval & Hs & Hn & Hi & Hl & Hg)]].
  - subst new r. rewrite Hr; simpl.
    rewrite drop_all, app_nil_r. simpl.
    repeat split; auto; discriminate.
  - subst new r. rewrite Hr; simpl.
    rewrite drop_app_length. simpl.
    repeat split; auto; discriminate.
  - fold w1 in Hg.
    destruct (GR_ROOT_ENLARGE_room _ _ _ Hg) as (Hroom & Hheap & Hblocks & Htrace & _).
    pose proof (uwt_fs_poll_start_run env o_loop o_path o_interval o_cb
                  w w1 l interval Hs Hn Hi Hl Hg) as Hrun.
    cbv zeta in Hrun.
    rewrite (new_handle_heap _ _ Hheap), (new_block_blocks _ _ Hblocks) in Hrun.
    fold h v i j in Hrun.
    assert (Hok : fst (GR_ROOT_ENLARGE env w) = Done None) by now rewrite Hg.
    subst new r. rewrite Hrun, Htrace. clear Hrun.
    destruct (uv_fs_poll_init env l h <? 0) eqn:Hinit;
      [|destruct (uv_fs_poll_start env h (String_val o_path) interval <? 0) eqn:Hstart];
      simpl; rewrite <- app_assoc, drop_app_length; simpl;
      rewrite ?Z.leb_antisym, ?Hstart; simpl.
    + repeat split; auto; discriminate.
    + repeat split; auto; discriminate.
    + destruct (pins_both (w_roots w1) o_cb (Val_custom v) Hroom)
        as (Hne & Hpi & Hpj). fold i in Hne, Hpi, Hpj. fold j in Hne, Hpi, Hpj.
      rewrite !Nat.eqb_refl, lookup_insert_eq.
      repeat split; auto.
Qed.

Lemma enlarge_before_pin_witness :
  native_start_ok
    (drop (length (w_trace empty_world))
       (w_trace (snd (uwt_fs_poll_start (example_env 0 0 0 0) Val_unit
                        (Val_string "/tmp/watched") (Val_long 100)
                        (Val_closure 1) empty_world)))) = true /\
  w_roots (snd (uwt_fs_poll_start (example_env 0 0 0 0) Val_unit
                  (Val_string "/tmp/watched") (Val_long 100) (Val_closure 1)
                  empty_world)) !! 0%nat = Some (Some (Val_closure 1)) /\
  w_roots (snd (uwt_fs_poll_start (example_env 0 0 0 0) Val_unit
                  (Val_string "/tmp/watched") (Val_long 100) (Val_closure 1)
                  empty_world)) !! 1%nat = Some (Some (Val_custom 0)).
Proof.
  assert (Hok : native_start_ok
    (drop (length (w_trace empty_world))
       (w_trace (snd (uwt_fs_poll_start (example_env 0 0 0 0) Val_unit
                        (Val_string "/tmp/watched") (Val_long 100)
                        (Val_closure 1) empty_world)))) = true)
    by (vm_compute; reflexivity).
  split; [exact Hok|].
  pose proof (enlarge_before_pin (example_env 0 0 0 0) Val_unit
                (Val_string "/tmp/watched") (Val_long 100) (Val_closure 1)
                empty_world) as T.
  cbv zeta in T. destruct T as (_ & _ & _ & T).
  destruct (T Hok) as (_ & _ & _ & Ti & Tj).
  split; [exact Ti | exact Tj].
Defined.

(** ** Validation in [uwt_fs_poll_start] *)

(** C3: validation precedes allocation.  When the path fails the safe-string
    check, or is the empty string, or the interval does not fit the native
    unsigned width, [uwt_fs_poll_start] returns an Error at once and the
    world is as it was: no handle is allocated, no native call is made,
    nothing is logged.  The checks run in this order, so the code is
    invalid-encoding when the safe-string check fails and invalid-argument
    otherwise. *)
Theorem validation_precedes_allocation (env : environment)
    (o_loop o_path o_interval o_cb : value) (w : world) :
  uwt_is_safe_string env (String_val o_path) = false \/
  String_val o_path = EmptyString \/
  ~ (0 <= Long_val o_interval <= UINT_MAX) ->
  uwt_fs_poll_start env o_loop o_path o_interval o_cb w =
  (Done (uwt__alloc_eresult
           (if uwt_is_safe_string env (String_val o_path)
            then VAL_UWT_ERROR_EINVAL else VAL_UWT_ERROR_ECHARSET)), w).
Proof.
  intros Hbad. unfold uwt_fs_poll_start.
  destruct (uwt_is_safe_string env (String_val o_path)); simpl; [|reflexivity].
  destruct Hbad as [Hbad | [Hempty | Hfit]]; [discriminate | |].
  - unfold String_val_0. rewrite Hempty. reflexivity.
  - destruct (Ascii.eqb (String_val_0 o_path) Ascii.zero); [reflexivity|].
    unfold UINT_VAL_RET_WRAP_EINVAL.
    destruct (Long_val o_interval <? 0) eqn:Hneg; simpl; [reflexivity|].
    destruct (UINT_MAX <? Long_val o_interval) eqn:Hbig; [reflexivity|].
    exfalso. apply Hfit. lia.
Qed.

Lemma validation_precedes_allocation_witness :
  uwt_fs_poll_start (example_env 0 0 0 0) Val_unit (Val_string "")
    (Val_long 100) (Val_closure 1) empty_world
  = (Done (Block Error_tag [Val_error UWT_EINVAL]), empty_world) /\
  uwt_fs_poll_start (example_env 0 0 0 0) Val_unit (Val_string "/tmp/watched")
    (Val_long (-1)) (Val_closure 1) empty_world
  = (Done (Block Error_tag [Val_error UWT_EINVAL]), empty_world) /\
  uwt_fs_poll_start (example_env 0 0 0 0) Val_unit
    (Val_string (String "a" (String Ascii.zero (String "b" EmptyString))))
    (Val_long 100) (Val_closure 1) empty_world
  = (Done (Block Error_tag [Val_error UWT_ECHARSET]), empty_world).
Proof.
  split; [|split].
  - apply (validation_precedes_allocation (example_env 0 0 0 0) Val_unit
             (Val_string "") (Val_long 100) (Val_closure 1) empty_world).
    right; left; reflexivity.
  - apply (validation_precedes_allocation (example_env 0 0 0 0) Val_unit
             (Val_string "/tmp/watched") (Val_long (-1)) (Val_closure 1)
             empty_world).
    right; right. simpl. unfold UINT_MAX. lia.
  - apply (validation_precedes_allocation (example_env 0 0 0 0) Val_unit
             (Val_string (String "a" (String Ascii.zero (String "b" EmptyString))))
             (Val_long 100) (Val_closure 1) empty_world).
    left; reflexivity.
Defined.

(** ** [uwt_tty_set_mode_na] *)

(** C6: terminal mode mapping.  Once the handle macro has let the call
    through, mode 0 reaches [uv_tty_set_mode] as [UV_TTY_MODE_NORMAL], 1 as
    [UV_TTY_MODE_RAW] and 2 as [UV_TTY_MODE_IO].  For any other mode the
    assertion fires: with assertions enabled the run is aborted before any
    native call; with assertions compiled out the switch falls through to
    the default, [UV_TTY_MODE_NORMAL]. *)
Theorem tty_mode_mapping (env : environment) (o_tty o_mode : value)
    (w : world) (s : nat) :
  HANDLE_INIT_NOUNINIT_NA env w o_tty = inr s ->
  let call (m : uv_tty_mode_t) :=
    (Done (VAL_UWT_UNIT_RESULT env (uv_tty_set_mode env s m)),
     World (w_heap w) (w_blocks w) (w_roots w)
           (w_trace w ++ [E_uv_tty_set_mode s m (uv_tty_set_mode env s m)])) in
  uwt_tty_set_mode_na env o_tty o_mode w =
  if Long_val o_mode =? 0 then call UV_TTY_MODE_NORMAL
  else if Long_val o_mode =? 1 then call UV_TTY_MODE_RAW
  else if Long_val o_mode =? 2 then call UV_TTY_MODE_IO
  else if NDEBUG env then call UV_TTY_MODE_NORMAL
  else (Aborted, w).
Proof.
  intros Hs call. unfold uwt_tty_set_mode_na. rewrite Hs.
  unfold tty_mode_switch, assert_false.
  destruct (Long_val o_mode) as [|[p|[p|p|]|]|p]; simpl; try reflexivity;
    destruct (NDEBUG env); reflexivity.
Qed.

Lemma tty_mode_mapping_witness :
  uwt_tty_set_mode_na (example_env 0 0 0 0) (Val_custom 0) (Val_long 3)
    (snd (uwt_tty_init (example_env 0 0 0 0) Val_unit (Val_long 0)
            (Val_long 1) empty_world))
  = (Aborted,
     snd (uwt_tty_init (example_env 0 0 0 0) Val_unit (Val_long 0)
            (Val_long 1) empty_world)) /\
  fst (uwt_tty_set_mode_na (example_env 0 0 0 0) (Val_custom 0) (Val_long 2)
         (snd (uwt_tty_init (example_env 0 0 0 0) Val_unit (Val_long 0)
                 (Val_long 1) empty_world)))
  = Done (Block Ok_tag [Val_unit]).
Proof.
  split.
  - apply (tty_mode_mapping (example_env 0 0 0 0) (Val_custom 0) (Val_long 3)
             (snd (uwt_tty_init (example_env 0 0 0 0) Val_unit (Val_long 0)
                     (Val_long 1) empty_world)) 1%nat).
    vm_compute. reflexivity.
  - rewrite (tty_mode_mapping (example_env 0 0 0 0) (Val_custom 0) (Val_long 2)
               (snd (uwt_tty_init (example_env 0 0 0 0) Val_unit (Val_long 0)
                       (Val_long 1) empty_world)) 1%nat)
      by (vm_compute; reflexivity).
    reflexivity.
Defined.

(** C7: a rejected mode is not fatal.  When [uv_tty_set_mode] returns a
    negative status, [uwt_tty_set_mode_na] returns
    [Error(Val_uwt_error status)] as a value, and the handles, the custom
    blocks and the root table are exactly as before: the handle is not
    closed, not freed, and its slots are untouched.  The native call is the
    only thing that happened. *)
Theorem set_mode_failure_not_fatal (env : environment) (o_tty o_mode : value)
    (w : world) (s : nat) (mode : uv_tty_mode_t) :
  HANDLE_INIT_NOUNINIT_NA env w o_tty = inr s ->
  tty_mode_switch env (Long_val o_mode) w = (Done mode, w) ->
  uv_tty_set_mode env s mode < 0 ->
  let r := uwt_tty_set_mode_na env o_tty o_mode w in
  fst r = Done (uwt__alloc_eresult (Val_uwt_error env (uv_tty_set_mode env s mode))) /\
  w_heap (snd r) = w_heap w /\
  w_blocks (snd r) = w_blocks w /\
  w_roots (snd r) = w_roots w /\
  w_trace (snd r) =
    w_trace w ++ [E_uv_tty_set_mode s mode (uv_tty_set_mode env s mode)].
Proof.
  intros Hs Hmode Hneg r. subst r.
  unfold uwt_tty_set_mode_na. rewrite Hs.
  unfold call_uv_tty_set_mode, bind, log, ret, VAL_UWT_UNIT_RESULT.
  rewrite Hmode; simpl.
  apply Z.ltb_lt in Hneg. rewrite Hneg. repeat split; reflexivity.
Qed.

Lemma set_mode_failure_not_fatal_witness :
  fst (uwt_tty_set_mode_na (example_env 0 0 0 (-22)) (Val_custom 0) (Val_long 2)
         (snd (uwt_tty_init (example_env 0 0 0 (-22)) Val_unit (Val_long 0)
                 (Val_long 1) empty_world)))
  = Done (Block Error_tag [Val_error (UWT_ERRNO 3)]) /\
  w_heap (snd (uwt_tty_set_mode_na (example_env 0 0 0 (-22)) (Val_custom 0)
                 (Val_long 2)
                 (snd (uwt_tty_init (example_env 0 0 0 (-22)) Val_unit
                         (Val_long 0) (Val_long 1) empty_world))))
  = w_heap (snd (uwt_tty_init (example_env 0 0 0 (-22)) Val_unit (Val_long 0)
                   (Val_long 1) empty_world)).
Proof.
  pose proof (set_mode_failure_not_fatal (example_env 0 0 0 (-22))
                (Val_custom 0) (Val_long 2)
                (snd (uwt_tty_init (example_env 0 0 0 (-22)) Val_unit
                        (Val_long 0) (Val_long 1) empty_world))
                1%nat UV_TTY_MODE_IO) as T.
  cbv zeta in T.
  destruct T as (T1 & T2 & _).
  - vm_compute. reflexivity.
  - reflexivity.
  - reflexivity.
  - split; [exact T1 | exact T2].
Defined.

(** ** The dispatcher *)

(** No dispatch after close: for a handle that is closed, or gone, the
    trampoline returns without calling anything. *)
Lemma fs_poll_cb_closed (env : environment) (p : nat) (status : Z)
    (prev curr : uv_stat_t) (w : world) :
  closed <$> w_heap w !! p <> Some false ->
  fs_poll_cb env p status prev curr w = (Done tt, w).
Proof.
  intros Hc. unfold fs_poll_cb, bind, HANDLE_CB_START.
  destruct (w_heap w !! p) as [hd|]; [|reflexivity].
  simpl in Hc. destruct (closed hd); [reflexivity|]. congruence.
Qed.

Section Dispatch.

Variable env : environment.
Variable p : nat.
Variable status : Z.
Variables prev curr : uv_stat_t.
Variable w : world.
Variable hd : handle.
Variables i j : nat.
Variables cb t : value.

(** The handle is Active: live, not closed, with the callback pinned through
    [cb_read] and its own value through [cb_listen]. *)
Hypothesis Hlive : w_heap w !! p = Some hd.
Hypothesis Hopen : closed hd = false.
Hypothesis Hread : cb_read hd = Some i.
Hypothesis Hlisten : cb_listen hd = Some j.
Hypothesis Hcb : w_roots w !! i = Some (Some cb).
Hypothesis Ht : w_roots w !! j = Some (Some t).

(** C4: dispatcher result delivery.  For an event delivered to an Active
    handle, [fs_poll_cb] calls the user callback exactly once, with the
    handle value pinned through [cb_listen] and with one result:
    [Error(Val_uwt_error status)] when the status is negative, and
    [Ok (s1, s2)] otherwise, where [s1] and [s2] are copies of the two stat
    records.  The result has exactly one tag.  Nothing is closed or freed
    before the callback runs, whatever the status; afterwards the handle is
    as it was unless the callback raised or asked for the close. *)
Theorem dispatcher_result_delivery :
  let param :=
    if status <? 0 then Block Error_tag [Val_error (Val_uwt_error env status)]
    else Block Ok_tag [Block 0 [uwt__stat_to_value prev; uwt__stat_to_value curr]] in
  let out := caml_callback2_exn env cb t param in
  let closing := Is_exception_result (fst out) || snd out in
  let r := fs_poll_cb env p status prev curr w in
  let new := drop (length (w_trace w)) (w_trace (snd r)) in
  fst r = Done tt /\
  w_trace (snd r) = w_trace w ++ new /\
  new = E_callback cb t param ::
        (if closing
         then [E_uv_close p; E_gr_unregister p Cb_read i;
               E_gr_unregister p Cb_listen j; E_native_free p]
         else []) /\
  count_events is_callback new = 1%nat /\
  Tag_val param = Some (if status <? 0 then Error_tag else Ok_tag) /\
  w_heap (snd r) =
    (if closing
     then <[p := Handle (h_type hd) (initialized hd) true None None]> (w_heap w)
     else w_heap w) /\
  w_roots (snd r) =
    (if closing then <[j := None]> (<[i := None]> (w_roots w)) else w_roots w).
Proof.
  intros param out closing r new.
  assert (Hparam : fs_poll_cb_param env status prev curr = param).
  { unfold fs_poll_cb_param, param. destruct (status <? 0); reflexivity. }
  assert (Hrun : r =
    (Done tt,
     if closing
     then World (<[p := Handle (h_type hd) (initialized hd) true None None]> (w_heap w))
                (w_blocks w) (<[j := None]> (<[i := None]> (w_roots w)))
                (w_trace w ++ [E_callback cb t param; E_uv_close p;
                               E_gr_unregister p Cb_read i;
                               E_gr_unregister p Cb_listen j; E_native_free p])
     else World (w_heap w) (w_blocks w) (w_roots w)
                (w_trace w ++ [E_callback cb t param]))).
  { subst r. unfold fs_poll_cb, bind, HANDLE_CB_START.
    rewrite Hlive, Hopen. unfold load_cb, GET_CB_VAL. rewrite Hlive; simpl.
    rewrite Hread, Hcb; simpl. rewrite Hlive; simpl.
    rewrite Hlisten, Ht, Hparam; simpl.
    unfold call_caml_callback2_exn, bind, log, ret, HANDLE_CB_END; simpl.
    fold out closing. destruct closing; [|reflexivity].
    unfold uwt__handle_finalize_close; simpl. rewrite Hlive, Hopen.
    unfold bind, log, uwt__gr_unregister, mark_closed; simpl.
    rewrite Hlive; simpl. rewrite Hread.
    cbn [w_heap w_blocks w_roots w_trace].
    rewrite lookup_alter_eq, Hlive; simpl. rewrite Hlisten.
    simpl. f_equal. f_equal; [|rewrite <- !app_assoc; reflexivity].
    apply map_eq. intros k. destruct (decide (k = p)) as [->|Hk].
    - rewrite lookup_insert_eq, !lookup_alter_eq, Hlive. reflexivity.
    - rewrite lookup_insert_ne, !lookup_alter_ne by auto. reflexivity. }
  subst new. rewrite Hrun.
  destruct closing; simpl; rewrite drop_app_length; simpl;
    (repeat split; try reflexivity);
    unfold param; destruct (status <? 0); reflexivity.
Qed.

End Dispatch.

(** The scenario of the spec: a poller is started on "/tmp/watched", then
    the native loop reports two snapshots, and later a failure. *)
Lemma dispatcher_result_delivery_witness :
  drop (length (w_trace (snd (uwt_fs_poll_start (example_env 0 0 0 0) Val_unit
                                (Val_string "/tmp/watched") (Val_long 100)
                                (Val_closure 1) empty_world))))
    (w_trace (snd (fs_poll_cb (example_env 0 0 0 0) 1 0 [1; 2] [1; 5]
                     (snd (uwt_fs_poll_start (example_env 0 0 0 0) Val_unit
                             (Val_string "/tmp/watched") (Val_long 100)
                             (Val_closure 1) empty_world)))))
  = [E_callback (Val_closure 1) (Val_custom 0)
       (Block Ok_tag [Block 0 [Block 0 [Val_long 1; Val_long 2];
                               Block 0 [Val_long 1; Val_long 5]]])] /\
  drop (length (w_trace (snd (uwt_fs_poll_start (example_env 0 0 0 0) Val_unit
                                (Val_string "/tmp/watched") (Val_long 100)
                                (Val_closure 1) empty_world))))
    (w_trace (snd (fs_poll_cb (example_env 0 0 0 0) 1 (-2) [] []
                     (snd (uwt_fs_poll_start (example_env 0 0 0 0) Val_unit
                             (Val_string "/tmp/watched") (Val_long 100)
                             (Val_closure 1) empty_world)))))
  = [E_callback (Val_closure 1) (Val_custom 0)
       (Block Error_tag [Val_error (UWT_ERRNO 1)])].
Proof.
  split.
  - pose proof (dispatcher_result_delivery (example_env 0 0 0 0) 1 0 [1; 2] [1; 5]
                  (snd (uwt_fs_poll_start (example_env 0 0 0 0) Val_unit
                          (Val_string "/tmp/watched") (Val_long 100)
                          (Val_closure 1) empty_world))
                  (Handle UV_FS_POLL false false (Some 0%nat) (Some 1%nat))
                  0%nat 1%nat (Val_closure 1) (Val_custom 0)) as T.
    cbv zeta in T.
    assert (Hlive : w_heap (snd (uwt_fs_poll_start (example_env 0 0 0 0) Val_unit
                                   (Val_string "/tmp/watched") (Val_long 100)
                                   (Val_closure 1) empty_world)) !! 1%nat
                    = Some (Handle UV_FS_POLL false false (Some 0%nat) (Some 1%nat)))
      by (vm_compute; reflexivity).
    specialize (T Hlive eq_refl eq_refl eq_refl).
    assert (Hcb : w_roots (snd (uwt_fs_poll_start (example_env 0 0 0 0) Val_unit
                                  (Val_string "/tmp/watched") (Val_long 100)
                                  (Val_closure 1) empty_world)) !! 0%nat
                  = Some (Some (Val_closure 1)))
      by (vm_compute; reflexivity).
    assert (Ht : w_roots (snd (uwt_fs_poll_start (example_env 0 0 0 0) Val_unit
                                 (Val_string "/tmp/watched") (Val_long 100)
                                 (Val_closure 1) empty_world)) !! 1%nat
                 = Some (Some (Val_custom 0)))
      by (vm_compute; reflexivity).
    destruct (T Hcb Ht) as (_ & _ & T3 & _).
    exact T3.
  - pose proof (dispatcher_result_delivery (example_env 0 0 0 0) 1 (-2) [] []
                  (snd (uwt_fs_poll_start (example_env 0 0 0 0) Val_unit
                          (Val_string "/tmp/watched") (Val_long 100)
                          (Val_closure 1) empty_world))
                  (Handle UV_FS_POLL false false (Some 0%nat) (Some 1%nat))
                  0%nat 1%nat (Val_closure 1) (Val_custom 0)) as T.
    cbv zeta in T.
    assert (Hlive : w_heap (snd (uwt_fs_poll_start (example_env 0 0 0 0) Val_unit
                                   (Val_string "/tmp/watched") (Val_long 100)
                                   (Val_closure 1) empty_world)) !! 1%nat
                    = Some (Handle UV_FS_POLL false false (Some 0%nat) (Some 1%nat)))
      by (vm_compute; reflexivity).
    specialize (T Hlive eq_refl eq_refl eq_refl).
    assert (Hcb : w_roots (snd (uwt_fs_poll_start (example_env 0 0 0 0) Val_unit
                                  (Val_string "/tmp/watched") (Val_long 100)
                                  (Val_closure 1) empty_world)) !! 0%nat
                  = Some (Some (Val_closure 1)))
      by (vm_compute; reflexivity).
    assert (Ht : w_roots (snd (uwt_fs_poll_start (example_env 0 0 0 0) Val_unit
                                 (Val_string "/tmp/watched") (Val_long 100)
                                 (Val_closure 1) empty_world)) !! 1%nat
                 = Some (Some (Val_custom 0)))
      by (vm_compute; reflexivity).
    destruct (T Hcb Ht) as (_ & _ & T3 & _).
    exact T3.
Defined.

(** ** The error code translator *)

Lemma errno_index_lookup (codes : list Z) (n : Z) (i : nat) :
  errno_index n codes = Some i -> codes !! i = Some n.
Proof.
  revert i. induction codes as [|c cs IH]; intros i Hi; simpl in *.
  - discriminate.
  - destruct (Z.eqb_spec n c) as [->|Hne].
    + injection Hi as <-. reflexivity.
    + destruct (errno_index n cs) as [k|]; simpl in Hi; [|discriminate].
      injection Hi as <-. simpl. apply IH. reflexivity.
Qed.

Lemma errno_index_member (codes : list Z) (n : Z) :
  In n codes -> exists i, errno_index n codes = Some i.
Proof.
  induction codes as [|c cs IH]; simpl; intros Hin.
  - contradiction.
  - destruct (Z.eqb_spec n c) as [->|Hne]; [eauto|].
    destruct Hin as [Heq|Hin]; [congruence|].
    destruct (IH Hin) as [i ->]. simpl. eauto.
Qed.

(** The translator never yields a validation code. *)
Lemma Val_uwt_error_native (env : environment) (n : Z) :
  Val_uwt_error env n <> VAL_UWT_ERROR_ECHARSET /\
  Val_uwt_error env n <> VAL_UWT_ERROR_EINVAL.
Proof.
  unfold Val_uwt_error. destruct (errno_index n (uv_errnos env)); split; discriminate.
Qed.

(** C9: error round-trip.  For native status codes of the enumeration, the
    translator yields a code that reads back as the status it was made
    from; two statuses with the same code are the same status; and the
    code of a native status is never one of the two validation codes.  So
    the [Error] that [fs_poll_cb] hands to the callback, and the one
    [uwt_tty_get_winsize] returns, read back as the negative status they
    were built from. *)
Theorem error_round_trip (env : environment) (a b : Z)
    (prev curr : uv_stat_t) (width height : Z) :
  In a (uv_errnos env) ->
  In b (uv_errnos env) ->
  uwt_error_code env (Val_uwt_error env a) = Some a /\
  (Val_uwt_error env a = Val_uwt_error env b -> a = b) /\
  Val_uwt_error env a <> VAL_UWT_ERROR_ECHARSET /\
  Val_uwt_error env a <> VAL_UWT_ERROR_EINVAL /\
  (a < 0 ->
   result_error_code env (fs_poll_cb_param env a prev curr) = Some a /\
   result_error_code env (uwt_tty_get_winsize_result env a width height) = Some a).
Proof.
  intros Ha Hb.
  destruct (errno_index_member _ _ Ha) as [i Hi].
  destruct (errno_index_member _ _ Hb) as [k Hk].
  assert (Hback : uwt_error_code env (Val_uwt_error env a) = Some a).
  { unfold Val_uwt_error, uwt_error_code. rewrite Hi.
    now apply errno_index_lookup. }
  split; [exact Hback|].
  split.
  { unfold Val_uwt_error. rewrite Hi, Hk.
    apply errno_index_lookup in Hi, Hk. intros [= ->]. congruence. }
  destruct (Val_uwt_error_native env a) as [Hc Hv].
  split; [exact Hc|]. split; [exact Hv|].
  intros Hneg. apply Z.ltb_lt in Hneg.
  unfold fs_poll_cb_param, uwt_tty_get_winsize_result. rewrite Hneg.
  simpl. auto.
Qed.

Lemma error_round_trip_witness :
  uwt_error_code (example_env 0 0 0 0) (Val_uwt_error (example_env 0 0 0 0) (-22))
  = Some (-22) /\
  Val_uwt_error (example_env 0 0 0 0) (-22) <> VAL_UWT_ERROR_EINVAL /\
  result_error_code (example_env 0 0 0 0)
    (fs_poll_cb_param (example_env 0 0 0 0) (-22) [] []) = Some (-22).
Proof.
  destruct (error_round_trip (example_env 0 0 0 0) (-22) (-2) [] [] 0 0)
    as (T1 & _ & _ & T2 & T3).
  - simpl. auto.
  - simpl. auto.
  - destruct T3 as [T3 _]; [lia|].
    split; [exact T1 | split; [exact T2 | exact T3]].
Defined.

(** ** [uwt_tty_init] *)



(** ** The [initialized] flag *)

(** [uwt_tty_init] is its prologue followed by the native call: the world
    the prologue leaves is the one in which [uv_tty_init] is called. *)
Lemma uwt_tty_init_split (env : environment) (o_loop o_fd o_readable : value)
    (w : world) :
  uwt_tty_init env o_loop o_fd o_readable w =
  uwt_tty_init_call env
    (Uv_loop_val env o_loop, FD_VAL o_fd, Long_val o_readable =? 1,
     Block Ok_tag [Val_custom (new_block w)], Val_custom (new_block w),
     new_handle w)
    (snd (uwt_tty_init_enter env o_loop o_fd o_readable w)).
Proof.
  unfold uwt_tty_init. unfold bind at 1.
  rewrite uwt_tty_init_enter_run. reflexivity.
Qed.

(** C5 does not hold as stated: when [uwt_tty_init] is about to call
    [uv_tty_init], the flag of the new handle is already true, although no
    native init call has been made. *)
Lemma initialized_before_native_init :
  w_trace (snd (uwt_tty_init_enter (example_env 0 0 0 0) Val_unit (Val_long 0)
                  (Val_long 1) empty_world))
  = [E_handle_create UV_TTY true 0 1] /\
  initialized <$>
    w_heap (snd (uwt_tty_init_enter (example_env 0 0 0 0) Val_unit (Val_long 0)
                   (Val_long 1) empty_world)) !! 1%nat
  = Some true /\
  ~ initialized_tracks_native_init
      (snd (uwt_tty_init_enter (example_env 0 0 0 0) Val_unit (Val_long 0)
              (Val_long 1) empty_world)).
Proof.
  split; [vm_compute; reflexivity|].
  split; [vm_compute; reflexivity|].
  intros Htracks.
  specialize (Htracks 1%nat (Handle UV_TTY true false None None)).
  assert (Hlive : w_heap (snd (uwt_tty_init_enter (example_env 0 0 0 0) Val_unit
                                 (Val_long 0) (Val_long 1) empty_world)) !! 1%nat
                  = Some (Handle UV_TTY true false None None))
    by (vm_compute; reflexivity).
  specialize (Htracks Hlive). vm_compute in Htracks. discriminate.
Qed.

(** C5, amended.  [uwt_tty_init] sets the flag just before the native init
    call: in the world in which [uv_tty_init] is called the new handle is
    flagged and nothing but its creation has been logged.  When the native
    call fails the handle is freed at once and the pointer of its custom
    block is cleared; when it succeeds the handle stays, flagged.  So after
    [uwt_tty_init] has returned, the new handle is live exactly when native
    init succeeded, and then its flag is true.  [uwt_fs_poll_start] never
    writes the flag: its handle, when one is left, has the flag
    [uwt__handle_res_create] gave it. *)
Theorem initialized_flag_set_before_init (env : environment)
    (o_loop o_path o_interval o_cb o_fd o_readable : value) (w : world) :
  let mid := snd (uwt_tty_init_enter env o_loop o_fd o_readable w) in
  let r := uwt_tty_init env o_loop o_fd o_readable w in
  let h := new_handle w in
  let v := new_block w in
  let erg :=
    uv_tty_init env (Uv_loop_val env o_loop) h (FD_VAL o_fd)
      (Long_val o_readable =? 1) in
  let r_poll := uwt_fs_poll_start env o_loop o_path o_interval o_cb w in
  initialized <$> w_heap mid !! h = Some true /\
  w_trace mid = w_trace w ++ [E_handle_create UV_TTY true v h] /\
  r = uwt_tty_init_call env
        (Uv_loop_val env o_loop, FD_VAL o_fd, Long_val o_readable =? 1,
         Block Ok_tag [Val_custom v], Val_custom v, h) mid /\
  initialized <$> w_heap (snd r) !! h = (if erg <? 0 then None else Some true) /\
  w_blocks (snd r) !! v = Some (if erg <? 0 then 0%nat else h) /\
  native_init_succeeded h (drop (length (w_trace w)) (w_trace (snd r))) =
    negb (erg <? 0) /\
  (initialized <$> w_heap (snd r_poll) !! h = None \/
   initialized <$> w_heap (snd r_poll) !! h =
     Some (initialized (fresh_handle UV_FS_POLL))).
Proof.
  intros mid r h v erg r_poll.
  pose proof (new_handle_fresh w) as Hfresh. fold h in Hfresh.
  split; [|split; [|split; [|split; [|split; [|split]]]]].
  - subst mid. rewrite uwt_tty_init_enter_run; simpl.
    now rewrite lookup_insert_eq.
  - subst mid. now rewrite uwt_tty_init_enter_run.
  - apply uwt_tty_init_split.
  - subst r. rewrite uwt_tty_init_run. fold h erg.
    destruct (erg <? 0); simpl.
    + now rewrite Hfresh.
    + now rewrite lookup_insert_eq.
  - subst r. rewrite uwt_tty_init_run. fold h v erg.
    destruct (erg <? 0); simpl; now rewrite lookup_insert_eq.
  - subst r. rewrite uwt_tty_init_run. fold h v erg.
    destruct (erg <? 0) eqn:Herg; simpl; rewrite drop_app_length; simpl;
      rewrite Nat.eqb_refl, Z.leb_antisym, Herg; reflexivity.
  - destruct (uwt_fs_poll_start_cases env o_loop o_path o_interval o_cb w)
      as [[r0 Hr] | [[_ Hr] | (l & interval & Hs & Hn & Hi & Hl & Hg)]].
    + left. subst r_poll. rewrite Hr; simpl. now rewrite Hfresh.
    + left. subst r_poll. rewrite Hr; simpl. now rewrite Hfresh.
    + destruct (GR_ROOT_ENLARGE_room _ _ _ Hg) as (_ & Hheap & _).
      pose proof (uwt_fs_poll_start_run env o_loop o_path o_interval o_cb
                    w _ l interval Hs Hn Hi Hl Hg) as Hrun.
      cbv zeta in Hrun. rewrite (new_handle_heap _ _ Hheap) in Hrun.
      fold h in Hrun. subst r_poll. rewrite Hrun. clear Hrun.
      destruct (_ <? 0); [|destruct (_ <? 0)]; simpl.
      * left. rewrite Hheap. now rewrite Hfresh.
      * right. now rewrite lookup_insert_eq.
      * right. now rewrite lookup_insert_eq.
Qed.

(** * Further properties of the stubs *)

(** ** One event on an Active handle *)

Lemma fs_poll_cb_active_run (env : environment) (p : nat) (status : Z)
    (prev curr : uv_stat_t) (w : world) (hd : handle) (i j : nat)
    (cb t : value) :
  w_heap w !! p = Some hd ->
  closed hd = false ->
  cb_read hd = Some i ->
  cb_listen hd = Some j ->
  w_roots w !! i = Some (Some cb) ->
  w_roots w !! j = Some (Some t) ->
  let param := fs_poll_cb_param env status prev curr in
  let out := caml_callback2_exn env cb t param in
  fs_poll_cb env p status prev curr w =
  (Done tt,
   if Is_exception_result (fst out) || snd out
   then World (<[p := Handle (h_type hd) (initialized hd) true None None]> (w_heap w))
              (w_blocks w) (<[j := None]> (<[i := None]> (w_roots w)))
              (w_trace w ++ [E_callback cb t param; E_uv_close p;
                             E_gr_unregister p Cb_read i;
                             E_gr_unregister p Cb_listen j; E_native_free p])
   else World (w_heap w) (w_blocks w) (w_roots w)
              (w_trace w ++ [E_callback cb t param])).
Proof.
  intros Hlive Hopen Hread Hlisten Hcb Ht param out.
  unfold fs_poll_cb, bind, HANDLE_CB_START.
  rewrite Hlive, Hopen. unfold load_cb, GET_CB_VAL. rewrite Hlive; simpl.
  rewrite Hread, Hcb; simpl. rewrite Hlive; simpl.
  rewrite Hlisten, Ht; simpl.
  unfold call_caml_callback2_exn, bind, log, ret, HANDLE_CB_END; simpl.
  fold param out.
  destruct (Is_exception_result (fst out) || snd out); [|reflexivity].
  unfold uwt__handle_finalize_close; simpl. rewrite Hlive, Hopen.
  unfold bind, log, uwt__gr_unregister, mark_closed; simpl.
  rewrite Hlive; simpl. rewrite Hread.
  cbn [w_heap w_blocks w_roots w_trace].
  rewrite lookup_alter_eq, Hlive; simpl. rewrite Hlisten.
  simpl. f_equal. f_equal; [|rewrite <- !app_assoc; reflexivity].
  apply map_eq. intros k. destruct (decide (k = p)) as [->|Hk].
  - rewrite lookup_insert_eq, !lookup_alter_eq, Hlive. reflexivity.
  - rewrite lookup_insert_ne, !lookup_alter_ne by auto. reflexivity.
Qed.

Section Start_then_event.

Variable env : environment.
Variables o_loop o_path o_interval o_cb : value.
Variables w w1 : world.
Variable l : nat.
Variable interval : Z.
Variable status : Z.
Variables prev curr : uv_stat_t.

Hypothesis Hsafe : uwt_is_safe_string env (String_val o_path) = true.
Hypothesis Hnonempty : Ascii.eqb (String_val_0 o_path) Ascii.zero = false.
Hypothesis Hinterval : UINT_VAL_RET_WRAP_EINVAL o_interval = inr interval.
Hypothesis Hloop : INIT_LOOP_RESULT env o_loop = inr l.
Hypothesis Henlarge : GR_ROOT_ENLARGE env w = (Done None, w1).

Let h := new_handle w1.
Let v := new_block w1.

(** Both native calls succeed. *)
Hypothesis Hinit : 0 <= uv_fs_poll_init env l h.
Hypothesis Hstart : 0 <= uv_fs_poll_start env h (String_val o_path) interval.

(** X1: a started poller delivers to its own callback.  After a successful
    [uwt_fs_poll_start], an event that libuv reports for the native handle
    that was started makes [fs_poll_cb] call the very closure that was
    passed to the start, once, and its first argument is the handle value
    the start returned.  If the callback raises or asks for the close, the
    two slots are released and the root table is again as it was when the
    start had enlarged it; otherwise the table and the handles stay as the
    start left them. *)
Theorem start_then_event :
  let started := uwt_fs_poll_start env o_loop o_path o_interval o_cb w in
  let returned := Field (match fst started with Done x => x | Aborted => Val_unit end) 0 in
  let param := fs_poll_cb_param env status prev curr in
  let out := caml_callback2_exn env o_cb returned param in
  let closing := Is_exception_result (fst out) || snd out in
  let r := fs_poll_cb env h status prev curr (snd started) in
  let new := drop (length (w_trace (snd started))) (w_trace (snd r)) in
  fst started = Done (Block Ok_tag [returned]) /\
  returned = Val_custom v /\
  w_blocks (snd started) !! v = Some h /\
  List.filter is_callback new = [E_callback o_cb returned param] /\
  w_roots (snd r) = (if closing then w_roots w1 else w_roots (snd started)) /\
  closed <$> w_heap (snd r) !! h = Some closing /\
  count_events (is_native_free h) new = (if closing then 1%nat else 0%nat).
Proof.
  intros started returned param out closing r new.
  destruct (GR_ROOT_ENLARGE_room _ _ _ Henlarge) as (Hroom & _).
  pose proof (uwt_fs_poll_start_run env o_loop o_path o_interval o_cb
                w w1 l interval Hsafe Hnonempty Hinterval Hloop Henlarge) as Hrun.
  cbv zeta in Hrun. fold h v in Hrun.
  assert (Hi : (uv_fs_poll_init env l h <? 0) = false) by (apply Z.ltb_ge; exact Hinit).
  assert (Hs : (uv_fs_poll_start env h (String_val o_path) interval <? 0) = false)
    by (apply Z.ltb_ge; exact Hstart).
  rewrite Hi, Hs in Hrun.
  set (i := next_slot (w_roots w1)) in *.
  set (j := next_slot (<[i := Some o_cb]> (w_roots w1))) in *.
  destruct (pins_both (w_roots w1) o_cb (Val_custom v) Hroom) as (Hne & Hpi & Hpj).
  fold i in Hne, Hpi, Hpj. fold j in Hne, Hpi, Hpj.
  destruct (next_slot_twice (w_roots w1) o_cb Hroom) as (Hfi & Hfj & _).
  fold i in Hfi, Hfj. fold j in Hfj.
  apply find_free_lookup in Hfi, Hfj.
  rewrite list_lookup_insert_ne in Hfj by auto.
  subst new r closing out param returned started.
  rewrite Hrun. cbn [fst snd Field]. simpl (default _ _).
  rewrite (fs_poll_cb_active_run env h status prev curr _
             (Handle UV_FS_POLL false false (Some i) (Some j)) i j
             o_cb (Val_custom v));
    [| simpl; now rewrite ?lookup_insert_eq ..].
  cbv zeta.
  destruct (Is_exception_result _ || _); simpl; rewrite drop_app_length; simpl;
    rewrite ?Nat.eqb_refl, ?lookup_insert_eq; repeat split; auto.
  now apply release_pins.
Qed.

End Start_then_event.

(** ** The handles and the root table stay consistent *)

Lemma get_set_cb (f f' : cb_field) (s : cb_t) (hd : handle) :
  get_cb f' (set_cb f s hd) = match f, f' with
                              | Cb_read, Cb_read | Cb_listen, Cb_listen => s
                              | _, _ => get_cb f' hd
                              end.
Proof. destruct f, f'; reflexivity. Qed.

Lemma holds_slot_alter_ne (heap : gmap nat handle) (g : handle -> handle)
    (h h' : nat) (f' : cb_field) (k : nat) :
  h' <> h ->
  holds_slot (alter g h heap) h' f' k <-> holds_slot heap h' f' k.
Proof. intros Hne. unfold holds_slot. now rewrite lookup_alter_ne. Qed.

(** Writing a field that does not hold slots leaves the held slots alone. *)
Lemma consistent_flags (heap : gmap nat handle) (roots : list (option value))
    (g : handle -> handle) (h : nat) :
  (forall hd f, get_cb f (g hd) = get_cb f hd) ->
  consistent heap roots -> consistent (alter g h heap) roots.
Proof.
  intros Hg Hc.
  assert (Heq : forall h' f' k,
             holds_slot (alter g h heap) h' f' k <-> holds_slot heap h' f' k).
  { intros h' f' k. destruct (decide (h' = h)) as [->|Hne].
    - unfold holds_slot. rewrite lookup_alter_eq.
      destruct (heap !! h) as [hd|]; simpl; [now rewrite Hg | tauto].
    - now apply holds_slot_alter_ne. }
  destruct Hc as (Ha & Hb & Hd). split; [|split].
  - intros h' f' k Hk. apply Heq in Hk. eauto.
  - intros h1 f1 h2 f2 k H1 H2. apply Heq in H1, H2. eauto.
  - intros k x Hk. destruct (Hd k x Hk) as (h' & f' & Hh).
    exists h', f'. now apply Heq.
Qed.

(** A new handle that holds no slot. *)
Lemma consistent_create (heap : gmap nat handle) (roots : list (option value))
    (h : nat) (hd : handle) :
  heap !! h = None ->
  cb_read hd = None -> cb_listen hd = None ->
  consistent heap roots -> consistent (<[h := hd]> heap) roots.
Proof.
  intros Hfresh Hr Hl Hc.
  assert (Heq : forall h' f' k,
             holds_slot (<[h := hd]> heap) h' f' k <-> holds_slot heap h' f' k).
  { intros h' f' k. unfold holds_slot. destruct (decide (h' = h)) as [->|Hne].
    - rewrite lookup_insert_eq, Hfresh. simpl.
      destruct f'; simpl; rewrite ?Hr, ?Hl; split; discriminate.
    - now rewrite lookup_insert_ne. }
  destruct Hc as (Ha & Hb & Hd). split; [|split].
  - intros h' f' k Hk. apply Heq in Hk. eauto.
  - intros h1 f1 h2 f2 k H1 H2. apply Heq in H1, H2. eauto.
  - intros k x Hk. destruct (Hd k x Hk) as (h' & f' & Hh).
    exists h', f'. now apply Heq.
Qed.

(** Freeing a handle that holds no slot. *)
Lemma consistent_remove (heap : gmap nat handle) (roots : list (option value))
    (h : nat) :
  (forall f, heap !! h ≫= get_cb f = None) ->
  consistent heap roots -> consistent (delete h heap) roots.
Proof.
  intros Hnone Hc.
  assert (Heq : forall h' f' k,
             holds_slot (delete h heap) h' f' k <-> holds_slot heap h' f' k).
  { intros h' f' k. unfold holds_slot. destruct (decide (h' = h)) as [->|Hne].
    - rewrite lookup_delete_eq, Hnone. simpl. split; discriminate.
    - now rewrite lookup_delete_ne. }
  destruct Hc as (Ha & Hb & Hd). split; [|split].
  - intros h' f' k Hk. apply Heq in Hk. eauto.
  - intros h1 f1 h2 f2 k H1 H2. apply Heq in H1, H2. eauto.
  - intros k x Hk. destruct (Hd k x Hk) as (h' & f' & Hh).
    exists h', f'. now apply Heq.
Qed.

(** The table grows by free slots. *)
Lemma consistent_grow (heap : gmap nat handle) (roots : list (option value))
    (n : nat) :
  consistent heap roots -> consistent heap (roots ++ replicate n None).
Proof.
  intros (Ha & Hb & Hd). split; [|split].
  - intros h f k Hk. destruct (Ha h f k Hk) as [x Hx].
    exists x. rewrite lookup_app_l; [exact Hx|]. eapply lookup_lt_Some; exact Hx.
  - exact Hb.
  - intros k x Hk. apply (Hd k x).
    destruct (decide (k < length roots)%nat) as [Hlt|Hge].
    + now rewrite lookup_app_l in Hk.
    + rewrite lookup_app_r in Hk by lia.
      apply lookup_replicate in Hk as [Hk _]. discriminate.
Qed.

(** Pinning a value in a free slot, for an empty field of a live handle. *)
Lemma consistent_pin (heap : gmap nat handle) (roots : list (option value))
    (h : nat) (f : cb_field) (i : nat) (v : value) :
  roots !! i = Some None ->
  is_Some (heap !! h) ->
  heap !! h ≫= get_cb f = None ->
  consistent heap roots ->
  consistent (alter (set_cb f (Some i)) h heap) (<[i := Some v]> roots).
Proof.
  intros Hfree [hd Hhd] Hempty (Ha & Hb & Hd).
  assert (Hlt : (i < length roots)%nat) by (eapply lookup_lt_Some; exact Hfree).
  assert (Heq : forall h' f' k,
             holds_slot (alter (set_cb f (Some i)) h heap) h' f' k <->
             (h' = h /\ f' = f /\ k = i) \/
             ((h' <> h \/ f' <> f) /\ holds_slot heap h' f' k)).
  { intros h' f' k. destruct (decide (h' = h)) as [->|Hne].
    - unfold holds_slot. rewrite lookup_alter_eq, Hhd. simpl.
      rewrite get_set_cb.
      destruct f, f'; split;
        try (intros [= <-]; left; auto; fail);
        try (intros [(_ & _ & ->) | [[?|?] ?]]; congruence);
        try (intros Hk; right; split; [right; discriminate | exact Hk]);
        try (intros [(_ & ? & _) | [_ Hk]]; [discriminate | exact Hk]).
    - rewrite holds_slot_alter_ne by auto. split.
      + intros Hk. right. auto.
      + intros [(? & _) | [_ Hk]]; [contradiction | exact Hk]. }
  assert (Hni : forall h' f' k, holds_slot heap h' f' k -> k <> i).
  { intros h' f' k Hk ->. destruct (Ha _ _ _ Hk) as [x Hx]. congruence. }
  split; [|split].
  - intros h' f' k Hk. apply Heq in Hk as [(_ & _ & ->) | [_ Hk]].
    + exists v. now apply list_lookup_insert_eq.
    + destruct (Ha _ _ _ Hk) as [x Hx]. exists x.
      rewrite list_lookup_insert_ne; [exact Hx|].
      intros <-. now apply (Hni _ _ _ Hk).
  - intros h1 f1 h2 f2 k H1 H2. apply Heq in H1, H2.
    destruct H1 as [(E1 & E2 & E3) | [_ H1]], H2 as [(E4 & E5 & E6) | [_ H2]].
    + subst. auto.
    + subst. now apply Hni in H2.
    + subst. now apply Hni in H1.
    + eapply Hb; eauto.
  - intros k x Hk. destruct (decide (k = i)) as [->|Hki].
    + exists h, f. apply Heq. left. auto.
    + rewrite list_lookup_insert_ne in Hk by auto.
      destruct (Hd k x Hk) as (h' & f' & Hh). exists h', f'.
      apply Heq. right. split; [|exact Hh].
      destruct (decide (h' = h)) as [->|]; [|left; auto].
      right. intros ->. unfold holds_slot in Hh. congruence.
Qed.

(** Releasing the slot a field holds. *)
Lemma consistent_release (heap : gmap nat handle) (roots : list (option value))
    (h : nat) (f : cb_field) (i : nat) :
  heap !! h ≫= get_cb f = Some i ->
  consistent heap roots ->
  consistent (alter (set_cb f None) h heap) (<[i := None]> roots).
Proof.
  intros Hheld (Ha & Hb & Hd).
  destruct (heap !! h) as [hd|] eqn:Hhd; [|discriminate]. simpl in Hheld.
  assert (Heq : forall h' f' k,
             holds_slot (alter (set_cb f None) h heap) h' f' k <->
             (h' <> h \/ f' <> f) /\ holds_slot heap h' f' k).
  { intros h' f' k. destruct (decide (h' = h)) as [->|Hne].
    - unfold holds_slot. rewrite lookup_alter_eq, Hhd. simpl.
      rewrite get_set_cb.
      destruct f, f'; split;
        try discriminate;
        try (intros [[?|?] ?]; congruence);
        try (intros Hk; split; [right; discriminate | exact Hk]);
        try (intros [_ Hk]; exact Hk).
    - rewrite holds_slot_alter_ne by auto. split.
      + intros Hk. auto.
      + intros [_ Hk]. exact Hk. }
  assert (Hown : holds_slot heap h f i) by (unfold holds_slot; now rewrite Hhd).
  split; [|split].
  - intros h' f' k Hk. apply Heq in Hk as [Hne Hk].
    destruct (Ha _ _ _ Hk) as [x Hx]. exists x.
    rewrite list_lookup_insert_ne; [exact Hx|].
    intros <-. destruct (Hb _ _ _ _ _ Hk Hown) as [E1 E2].
    destruct Hne; congruence.
  - intros h1 f1 h2 f2 k H1 H2.
    apply Heq in H1 as [_ H1], H2 as [_ H2]. eapply Hb; eauto.
  - intros k x Hk. destruct (decide (k = i)) as [->|Hki].
    + rewrite list_lookup_insert_eq in Hk; [discriminate|].
      destruct (Ha _ _ _ Hown) as [y Hy]. eapply lookup_lt_Some; exact Hy.
    + rewrite list_lookup_insert_ne in Hk by auto.
      destruct (Hd k x Hk) as (h' & f' & Hh). exists h', f'.
      apply Heq. split; [|exact Hh].
      destruct (decide (h' = h)) as [->|]; [|left; auto].
      right. intros ->. unfold holds_slot in Hh, Hown. congruence.
Qed.

Lemma consistent_empty : registry_consistent empty_world.
Proof.
  split; [|split].
  - intros h f i Hk. unfold holds_slot in Hk. simpl in Hk.
    rewrite lookup_empty in Hk. discriminate.
  - intros h1 f1 h2 f2 i Hk. unfold holds_slot in Hk. simpl in Hk.
    rewrite lookup_empty in Hk. discriminate.
  - intros i x Hk. simpl in Hk. discriminate.
Qed.

Lemma bind_run {A B : Type} (m : M A) (k : A -> M B) (w w1 : world) (a : A) :
  m w = (Done a, w1) -> bind m k w = k a w1.
Proof. intros Hm. unfold bind. now rewrite Hm. Qed.

Lemma consistent_unregister (h : nat) (f : cb_field) (w : world) :
  registry_consistent w ->
  exists w', uwt__gr_unregister h f w = (Done tt, w') /\ registry_consistent w'.
Proof.
  intros Hc. unfold uwt__gr_unregister.
  destruct (w_heap w !! h ≫= get_cb f) as [i|] eqn:Hheld.
  - eexists. split; [reflexivity|]. now apply consistent_release.
  - eauto.
Qed.

(** The close sequence keeps the handles and the root table consistent. *)
Lemma consistent_finalize_close (h : nat) (w : world) :
  registry_consistent w ->
  exists w', uwt__handle_finalize_close h w = (Done tt, w') /\
             registry_consistent w'.
Proof.
  intros Hc. unfold uwt__handle_finalize_close.
  destruct (w_heap w !! h) as [hd|]; [|eauto].
  destruct (closed hd); [eauto|].
  rewrite (bind_run _ _ _ _ tt (eq_refl : log (E_uv_close h) w = (Done tt, _))).
  destruct (consistent_unregister h Cb_read _ (Hc : registry_consistent
              (World (w_heap w) (w_blocks w) (w_roots w)
                     (w_trace w ++ [E_uv_close h])))) as (w2 & E2 & Hc2).
  rewrite (bind_run _ _ _ _ _ E2).
  destruct (consistent_unregister h Cb_listen w2 Hc2) as (w3 & E3 & Hc3).
  rewrite (bind_run _ _ _ _ _ E3).
  unfold bind, log, mark_closed; simpl.
  eexists. split; [reflexivity|].
  apply consistent_flags; [|exact Hc3].
  intros hd' f. destruct f; reflexivity.
Qed.

(** ** Every way through [fs_poll_cb] *)

(** The trampoline returns at once, or it calls the callback and returns, or
    it calls the callback and then runs the close sequence. *)
Lemma fs_poll_cb_cases (env : environment) (p : nat) (status : Z)
    (prev curr : uv_stat_t) (w : world) :
  fs_poll_cb env p status prev curr w = (Done tt, w) \/
  exists cb t,
    let w1 := World (w_heap w) (w_blocks w) (w_roots w)
                (w_trace w ++ [E_callback cb t (fs_poll_cb_param env status prev curr)]) in
    closed <$> w_heap w !! p = Some false /\
    (fs_poll_cb env p status prev curr w = (Done tt, w1) \/
     fs_poll_cb env p status prev curr w = uwt__handle_finalize_close p w1).
Proof.
  unfold fs_poll_cb, bind, HANDLE_CB_START.
  destruct (w_heap w !! p) as [hd|] eqn:Hhd; [|left; reflexivity].
  destruct (closed hd) eqn:Hcl; [left; reflexivity|].
  right. unfold load_cb. rewrite Hhd. simpl.
  assert (Hget : forall s, exists x, GET_CB_VAL s w = (Done x, w)).
  { intros s. unfold GET_CB_VAL. destruct s as [i|]; [|eauto].
    destruct (w_roots w !! i) as [[x|]|]; eauto. }
  destruct (Hget (cb_read hd)) as [cb ->]. rewrite Hhd. simpl.
  destruct (Hget (cb_listen hd)) as [t ->].
  exists cb, t. simpl. rewrite Hcl. split; [reflexivity|].
  unfold call_caml_callback2_exn, bind, log, ret, HANDLE_CB_END; simpl.
  destruct (Is_exception_result _ || _); auto.
Qed.

(** ** The terminal stubs leave handles and root table alone *)

Lemma uwt_tty_set_mode_na_frame (env : environment) (o_tty o_mode : value)
    (w : world) :
  let r := uwt_tty_set_mode_na env o_tty o_mode w in
  w_heap (snd r) = w_heap w /\ w_blocks (snd r) = w_blocks w /\
  w_roots (snd r) = w_roots w /\
  (w_trace (snd r) = w_trace w \/
   exists s m erg, w_trace (snd r) = w_trace w ++ [E_uv_tty_set_mode s m erg]).
Proof.
  unfold uwt_tty_set_mode_na.
  destruct (HANDLE_INIT_NOUNINIT_NA env w o_tty) as [r0|s]; [simpl; auto|].
  unfold tty_mode_switch, assert_false, call_uv_tty_set_mode, bind, log, ret, abort.
  destruct (Long_val o_mode) as [|[q|[q|q|]|]|q]; simpl;
    try destruct (NDEBUG env); simpl; eauto 10.
Qed.

Lemma uwt_tty_reset_mode_na_run (env : environment) (unit : value) (w : world) :
  uwt_tty_reset_mode_na env unit w =
  (Done (VAL_UWT_UNIT_RESULT env (uv_tty_reset_mode env tt)),
   World (w_heap w) (w_blocks w) (w_roots w)
         (w_trace w ++ [E_uv_tty_reset_mode (uv_tty_reset_mode env tt)])).
Proof. reflexivity. Qed.

Lemma uwt_tty_get_winsize_run (env : environment) (o_tty : value) (w : world) :
  uwt_tty_get_winsize env o_tty w =
  match HANDLE_NO_UNINIT_CLOSED_WRAP env w o_tty with
  | Some r => (Done r, w)
  | None =>
      let s := match o_tty with
               | Val_custom b => default 0%nat (w_blocks w !! b)
               | _ => 0%nat
               end in
      let '(erg, width, height) := uv_tty_get_winsize env s in
      (Done (uwt_tty_get_winsize_result env erg width height),
       World (w_heap w) (w_blocks w) (w_roots w)
             (w_trace w ++ [E_uv_tty_get_winsize s erg]))
  end.
Proof.
  unfold uwt_tty_get_winsize.
  destruct (HANDLE_NO_UNINIT_CLOSED_WRAP env w o_tty); [reflexivity|].
  unfold bind, Handle_val, call_uv_tty_get_winsize, log, ret.
  destruct o_tty; simpl;
    destruct (uv_tty_get_winsize env _) as [[erg width] height]; reflexivity.
Qed.

Lemma GR_ROOT_ENLARGE_consistent (env : environment) (w w1 : world)
    (r : option value) :
  GR_ROOT_ENLARGE env w = (Done r, w1) ->
  registry_consistent w -> registry_consistent w1.
Proof.
  unfold GR_ROOT_ENLARGE. intros Hg Hc.
  destruct (2 <=? count_free (w_roots w))%nat.
  - injection Hg as _ <-. exact Hc.
  - destruct (gr_can_grow env (length (w_roots w))); injection Hg as _ <-.
    + now apply consistent_grow.
    + exact Hc.
Qed.

Lemma uwt_fs_poll_start_consistent (env : environment)
    (o_loop o_path o_interval o_cb : value) (w : world) :
  registry_consistent w ->
  registry_consistent (snd (uwt_fs_poll_start env o_loop o_path o_interval o_cb w)).
Proof.
  intros Hc.
  destruct (uwt_fs_poll_start_cases env o_loop o_path o_interval o_cb w)
    as [[r0 Hr] | [[_ Hr] | (l & interval & Hs & Hn & Hi & Hl & Hg)]].
  - now rewrite Hr.
  - rewrite Hr. exact Hc.
  - pose proof (GR_ROOT_ENLARGE_consistent _ _ _ _ Hg Hc) as Hc1.
    destruct (GR_ROOT_ENLARGE_room _ _ _ Hg) as (Hroom & _).
    rewrite (uwt_fs_poll_start_run env o_loop o_path o_interval o_cb
               w _ l interval Hs Hn Hi Hl Hg).
    set (w1 := snd (GR_ROOT_ENLARGE env w)) in *.
    set (h := new_handle w1). set (v := new_block w1).
    set (i := next_slot (w_roots w1)).
    set (j := next_slot (<[i := Some o_cb]> (w_roots w1))).
    pose proof (new_handle_fresh w1) as Hfresh. fold h in Hfresh.
    destruct (_ <? 0); [exact Hc1|].
    destruct (_ <? 0).
    + apply consistent_create; auto.
    + destruct (next_slot_twice (w_roots w1) o_cb Hroom) as (Hfi & Hfj & _).
      fold i in Hfi, Hfj. fold j in Hfj.
      apply find_free_lookup in Hfi, Hfj.
      unfold registry_consistent; simpl.
      replace (<[h := Handle UV_FS_POLL false false (Some i) (Some j)]> (w_heap w1))
        with (alter (set_cb Cb_listen (Some j)) h
                (alter (set_cb Cb_read (Some i)) h
                   (<[h := fresh_handle UV_FS_POLL]> (w_heap w1))))
        by (now rewrite !alter_insert_eq).
      apply consistent_pin.
      * exact Hfj.
      * rewrite alter_insert_eq, lookup_insert_eq. eauto.
      * now rewrite alter_insert_eq, lookup_insert_eq.
      * apply consistent_pin.
        -- exact Hfi.
        -- rewrite lookup_insert_eq. eauto.
        -- now rewrite lookup_insert_eq.
        -- apply consistent_create; auto.
Qed.

Lemma fs_poll_cb_consistent (env : environment) (p : nat) (status : Z)
    (prev curr : uv_stat_t) (w : world) :
  registry_consistent w ->
  fst (fs_poll_cb env p status prev curr w) = Done tt /\
  registry_consistent (snd (fs_poll_cb env p status prev curr w)).
Proof.
  intros Hc.
  destruct (fs_poll_cb_cases env p status prev curr w)
    as [-> | (cb & t & _ & [-> | ->])]; auto.
  destruct (consistent_finalize_close p
              (World (w_heap w) (w_blocks w) (w_roots w)
                 (w_trace w ++ [E_callback cb t (fs_poll_cb_param env status prev curr)]))
              Hc) as (w' & -> & Hc').
  auto.
Qed.

(** X2: the poller keeps handles and root table consistent.  If every slot
    held by a handle is pinned, no slot is held twice and every pinned value
    is held by some handle, then the same is true after any call of
    [uwt_fs_poll_start], whatever its arguments and whichever way it ends,
    and after any event handled by [fs_poll_cb], closing or not: no pinned
    value is leaked and no handle is left with a dangling slot. *)
Theorem poller_keeps_consistency (env : environment)
    (o_loop o_path o_interval o_cb : value) (p : nat) (status : Z)
    (prev curr : uv_stat_t) (w : world) :
  registry_consistent w ->
  registry_consistent (snd (uwt_fs_poll_start env o_loop o_path o_interval o_cb w)) /\
  registry_consistent (snd (fs_poll_cb env p status prev curr w)).
Proof.
  intros Hc. split.
  - now apply uwt_fs_poll_start_consistent.
  - now apply fs_poll_cb_consistent.
Qed.

(** X3: the terminal stubs keep handles and root table consistent:
    [uwt_tty_init], whether the native init succeeds or fails,
    [uwt_tty_set_mode_na], [uwt_tty_reset_mode_na] and
    [uwt_tty_get_winsize]. *)
Theorem tty_keeps_consistency (env : environment)
    (o_loop o_fd o_readable o_tty o_mode unit : value) (w : world) :
  registry_consistent w ->
  registry_consistent (snd (uwt_tty_init env o_loop o_fd o_readable w)) /\
  registry_consistent (snd (uwt_tty_set_mode_na env o_tty o_mode w)) /\
  registry_consistent (snd (uwt_tty_reset_mode_na env unit w)) /\
  registry_consistent (snd (uwt_tty_get_winsize env o_tty w)).
Proof.
  intros Hc. split; [|split; [|split]].
  - rewrite uwt_tty_init_run. destruct (_ <? 0); [exact Hc|].
    apply consistent_create; auto. apply new_handle_fresh.
  - destruct (uwt_tty_set_mode_na_frame env o_tty o_mode w) as (Hh & _ & Hr & _).
    unfold registry_consistent. now rewrite Hh, Hr.
  - rewrite uwt_tty_reset_mode_na_run. exact Hc.
  - rewrite uwt_tty_get_winsize_run.
    destruct (HANDLE_NO_UNINIT_CLOSED_WRAP env w o_tty); [exact Hc|].
    cbv zeta. destruct (uv_tty_get_winsize env _) as [[erg width] height].
    exact Hc.
Qed.

(** ** What is already there is not disturbed *)

Lemma undisturbed_refl (w : world) : undisturbed w w.
Proof. repeat split; auto. exists []. now rewrite app_nil_r. Qed.

Lemma undisturbed_log (w : world) (evs : list event) :
  undisturbed w (World (w_heap w) (w_blocks w) (w_roots w) (w_trace w ++ evs)).
Proof. repeat split; auto. simpl. eauto. Qed.

Lemma GR_ROOT_ENLARGE_undisturbed (env : environment) (w w1 : world)
    (r : option value) :
  GR_ROOT_ENLARGE env w = (Done r, w1) -> undisturbed w w1.
Proof.
  unfold GR_ROOT_ENLARGE. intros Hg.
  destruct (2 <=? count_free (w_roots w))%nat.
  - injection Hg as _ <-. apply undisturbed_log.
  - destruct (gr_can_grow env (length (w_roots w))); injection Hg as _ <-.
    + repeat split; simpl; auto; [|eauto].
      intros i x Hi. rewrite lookup_app_l; [exact Hi|].
      eapply lookup_lt_Some; exact Hi.
    + apply undisturbed_log.
Qed.

Lemma uwt_fs_poll_start_undisturbed (env : environment)
    (o_loop o_path o_interval o_cb : value) (w : world) :
  undisturbed w (snd (uwt_fs_poll_start env o_loop o_path o_interval o_cb w)).
Proof.
  destruct (uwt_fs_poll_start_cases env o_loop o_path o_interval o_cb w)
    as [[r0 Hr] | [[_ Hr] | (l & interval & Hs & Hn & Hi & Hl & Hg)]].
  - rewrite Hr. apply undisturbed_refl.
  - rewrite Hr. apply undisturbed_log.
  - destruct (GR_ROOT_ENLARGE_undisturbed _ _ _ _ Hg) as (Hh1 & Hb1 & Hr1 & [n1 Ht1]).
    destruct (GR_ROOT_ENLARGE_room _ _ _ Hg) as (Hroom & _).
    rewrite (uwt_fs_poll_start_run env o_loop o_path o_interval o_cb
               w _ l interval Hs Hn Hi Hl Hg).
    set (w1 := snd (GR_ROOT_ENLARGE env w)) in *.
    set (h := new_handle w1). set (v := new_block w1).
    set (i := next_slot (w_roots w1)).
    set (j := next_slot (<[i := Some o_cb]> (w_roots w1))).
    pose proof (new_handle_fresh w1) as Hfresh. fold h in Hfresh.
    pose proof (new_block_fresh w1) as Hfreshb. fold v in Hfreshb.
    assert (Hheap : forall hd0 p hd, w_heap w !! p = Some hd ->
                      <[h := hd0]> (w_heap w1) !! p = Some hd).
    { intros hd0 p hd Hp. apply Hh1 in Hp.
      rewrite lookup_insert_ne; [exact Hp | congruence]. }
    assert (Hblocks : forall q0 b q, w_blocks w !! b = Some q ->
                        <[v := q0]> (w_blocks w1) !! b = Some q).
    { intros q0 b q Hp. apply Hb1 in Hp.
      rewrite lookup_insert_ne; [exact Hp | congruence]. }
    destruct (_ <? 0); [|destruct (_ <? 0)]; (split; [|split; [|split]]); simpl;
      auto; try (rewrite Ht1, <- app_assoc; eauto; fail).
    destruct (next_slot_twice (w_roots w1) o_cb Hroom) as (Hfi & Hfj & _).
    fold i in Hfi, Hfj. fold j in Hfj.
    apply find_free_lookup in Hfi, Hfj.
    intros k x Hk. apply Hr1 in Hk.
    assert (k <> i) by congruence.
    assert (k <> j).
    { intros ->. rewrite list_lookup_insert_ne in Hfj by auto. congruence. }
    now rewrite !list_lookup_insert_ne by auto.
Qed.

Lemma uwt_tty_init_undisturbed (env : environment)
    (o_loop o_fd o_readable : value) (w : world) :
  undisturbed w (snd (uwt_tty_init env o_loop o_fd o_readable w)).
Proof.
  rewrite uwt_tty_init_run.
  pose proof (new_handle_fresh w) as Hfresh.
  pose proof (new_block_fresh w) as Hfreshb.
  destruct (_ <? 0); (split; [|split; [|split]]); simpl; eauto.
  - intros b q Hb. rewrite lookup_insert_ne; [exact Hb | congruence].
  - intros p hd Hp. rewrite lookup_insert_ne; [exact Hp | congruence].
  - intros b q Hb. rewrite lookup_insert_ne; [exact Hb | congruence].
Qed.

Lemma uwt_tty_set_mode_na_undisturbed (env : environment)
    (o_tty o_mode : value) (w : world) :
  undisturbed w (snd (uwt_tty_set_mode_na env o_tty o_mode w)).
Proof.
  destruct (uwt_tty_set_mode_na_frame env o_tty o_mode w)
    as (Hh & Hb & Hr & Ht).
  split; [|split; [|split]].
  - intros p hd. now rewrite Hh.
  - intros b q. now rewrite Hb.
  - intros i x. now rewrite Hr.
  - destruct Ht as [-> | (s & m & erg & ->)]; [exists []|eauto].
    now rewrite app_nil_r.
Qed.

Lemma uwt_tty_get_winsize_undisturbed (env : environment) (o_tty : value)
    (w : world) :
  undisturbed w (snd (uwt_tty_get_winsize env o_tty w)).
Proof.
  rewrite uwt_tty_get_winsize_run.
  destruct (HANDLE_NO_UNINIT_CLOSED_WRAP env w o_tty); [apply undisturbed_refl|].
  cbv zeta. destruct (uv_tty_get_winsize env _) as [[erg width] height].
  apply undisturbed_log.
Qed.

(** X4: the synchronous stubs touch nothing that was there before.  After
    [uwt_fs_poll_start], [uwt_tty_init], [uwt_tty_set_mode_na],
    [uwt_tty_reset_mode_na] or [uwt_tty_get_winsize], whatever the arguments
    and the outcome, every handle, every custom block and every pinned value
    that existed before the call is still there unchanged, and the trace has
    only grown. *)
Theorem stubs_leave_the_rest_alone (env : environment)
    (o_loop o_path o_interval o_cb o_fd o_readable o_tty o_mode unit : value)
    (w : world) :
  undisturbed w (snd (uwt_fs_poll_start env o_loop o_path o_interval o_cb w)) /\
  undisturbed w (snd (uwt_tty_init env o_loop o_fd o_readable w)) /\
  undisturbed w (snd (uwt_tty_set_mode_na env o_tty o_mode w)) /\
  undisturbed w (snd (uwt_tty_reset_mode_na env unit w)) /\
  undisturbed w (snd (uwt_tty_get_winsize env o_tty w)).
Proof.
  split; [apply uwt_fs_poll_start_undisturbed|].
  split; [apply uwt_tty_init_undisturbed|].
  split; [apply uwt_tty_set_mode_na_undisturbed|].
  split; [|apply uwt_tty_get_winsize_undisturbed].
  rewrite uwt_tty_reset_mode_na_run. apply undisturbed_log.
Qed.

(** An Active poller in [w] is an Active poller in any [w'] that left [w]
    undisturbed: the next event for it reaches the same callback with the
    same handle value. *)
Lemma fs_poll_cb_after (env : environment) (p : nat) (status : Z)
    (prev curr : uv_stat_t) (w w' : world) (hd : handle) (i j : nat)
    (cb t : value) :
  w_heap w !! p = Some hd ->
  closed hd = false ->
  cb_read hd = Some i ->
  cb_listen hd = Some j ->
  w_roots w !! i = Some (Some cb) ->
  w_roots w !! j = Some (Some t) ->
  undisturbed w w' ->
  List.filter is_callback
    (drop (length (w_trace w')) (w_trace (snd (fs_poll_cb env p status prev curr w'))))
  = [E_callback cb t (fs_poll_cb_param env status prev curr)].
Proof.
  intros Hlive Hopen Hread Hlisten Hcb Ht (Hh & _ & Hr & _).
  rewrite (fs_poll_cb_active_run env p status prev curr w' hd i j cb t); auto.
  cbv zeta. destruct (Is_exception_result _ || _); simpl;
    now rewrite drop_app_length.
Qed.

Section Active_poller.

Variable env : environment.
Variable p : nat.
Variable w : world.
Variable hd : handle.
Variables i j : nat.
Variables cb t : value.

(** The poller at [p] is Active in [w]. *)
Hypothesis Hlive : w_heap w !! p = Some hd.
Hypothesis Hopen : closed hd = false.
Hypothesis Hread : cb_read hd = Some i.
Hypothesis Hlisten : cb_listen hd = Some j.
Hypothesis Hcb : w_roots w !! i = Some (Some cb).
Hypothesis Ht : w_roots w !! j = Some (Some t).

(** X5: an Active poller survives the other calls.  Whatever synchronous
    stub runs in between, and however it ends (another
    [uwt_fs_poll_start], a [uwt_tty_init], a mode change, a mode reset, a
    size query), the next event for the poller still makes [fs_poll_cb] call
    the poller's own callback, once, with the poller's own handle value. *)
Theorem active_poller_survives
    (o_loop o_path o_interval o_cb o_fd o_readable o_tty o_mode unit : value)
    (status : Z) (prev curr : uv_stat_t) :
  let delivered (w' : world) :=
    List.filter is_callback
      (new_events w' (snd (fs_poll_cb env p status prev curr w'))) in
  let expected := [E_callback cb t (fs_poll_cb_param env status prev curr)] in
  delivered (snd (uwt_fs_poll_start env o_loop o_path o_interval o_cb w)) = expected /\
  delivered (snd (uwt_tty_init env o_loop o_fd o_readable w)) = expected /\
  delivered (snd (uwt_tty_set_mode_na env o_tty o_mode w)) = expected /\
  delivered (snd (uwt_tty_reset_mode_na env unit w)) = expected /\
  delivered (snd (uwt_tty_get_winsize env o_tty w)) = expected.
Proof.
  intros delivered expected. subst delivered expected. unfold new_events.
  repeat split;
    apply (fs_poll_cb_after env p status prev curr w _ hd i j cb t
             Hlive Hopen Hread Hlisten Hcb Ht).
  - apply uwt_fs_poll_start_undisturbed.
  - apply uwt_tty_init_undisturbed.
  - apply uwt_tty_set_mode_na_undisturbed.
  - rewrite uwt_tty_reset_mode_na_run. apply undisturbed_log.
  - apply uwt_tty_get_winsize_undisturbed.
Qed.

(** X6: two events in a row.  Events for an Active poller are delivered in
    the order they come, each to the same callback with the same handle
    value, as long as the callback neither raises nor asks for the close.
    Once it does, the handle is closed within that event, the next event
    calls nothing, and over both events the native struct is freed at most
    once. *)
Theorem two_events_in_a_row (s1 s2 : Z) (prev1 curr1 prev2 curr2 : uv_stat_t) :
  let param1 := fs_poll_cb_param env s1 prev1 curr1 in
  let param2 := fs_poll_cb_param env s2 prev2 curr2 in
  let out1 := caml_callback2_exn env cb t param1 in
  let out2 := caml_callback2_exn env cb t param2 in
  let closing1 := Is_exception_result (fst out1) || snd out1 in
  let closing2 := Is_exception_result (fst out2) || snd out2 in
  let w1 := snd (fs_poll_cb env p s1 prev1 curr1 w) in
  let w2 := snd (fs_poll_cb env p s2 prev2 curr2 w1) in
  List.filter is_callback (new_events w w2) =
    E_callback cb t param1 ::
    (if closing1 then [] else [E_callback cb t param2]) /\
  count_events (is_native_free p) (new_events w w2) =
    (if closing1 || closing2 then 1%nat else 0%nat) /\
  closed <$> w_heap w2 !! p = Some (closing1 || closing2) /\
  (if closing1 then w2 = w1 else w_heap w1 = w_heap w /\ w_roots w1 = w_roots w).
Proof.
  intros param1 param2 out1 out2 closing1 closing2 w1 w2.
  pose proof (fs_poll_cb_active_run env p s1 prev1 curr1 w hd i j cb t
                Hlive Hopen Hread Hlisten Hcb Ht) as Hrun1.
  cbv zeta in Hrun1. fold param1 out1 closing1 in Hrun1.
  unfold new_events. subst w2 w1. rewrite Hrun1. simpl.
  destruct closing1; simpl.
  - rewrite fs_poll_cb_closed by (simpl; now rewrite lookup_insert_eq).
    simpl. rewrite drop_app_length. simpl.
    rewrite Nat.eqb_refl, lookup_insert_eq. auto.
  - rewrite (fs_poll_cb_active_run env p s2 prev2 curr2
               (World (w_heap w) (w_blocks w) (w_roots w)
                      (w_trace w ++ [E_callback cb t param1]))
               hd i j cb t Hlive Hopen Hread Hlisten Hcb Ht).
    cbv zeta. fold param2 out2 closing2.
    destruct closing2; simpl; rewrite <- app_assoc, drop_app_length; simpl;
      rewrite ?Nat.eqb_refl, ?lookup_insert_eq, ?Hlive; simpl; rewrite ?Hopen;
      auto.
Qed.

End Active_poller.

(** ** The terminal stubs, case by case *)

Lemma uwt_tty_set_mode_na_run (env : environment) (o_tty o_mode : value)
    (w : world) (s : nat) :
  HANDLE_INIT_NOUNINIT_NA env w o_tty = inr s ->
  uwt_tty_set_mode_na env o_tty o_mode w =
  if (0 <=? Long_val o_mode) && (Long_val o_mode <=? 2) || NDEBUG env
  then
    let m := if Long_val o_mode =? 2 then UV_TTY_MODE_IO
             else if Long_val o_mode =? 1 then UV_TTY_MODE_RAW
             else UV_TTY_MODE_NORMAL in
    (Done (VAL_UWT_UNIT_RESULT env (uv_tty_set_mode env s m)),
     World (w_heap w) (w_blocks w) (w_roots w)
           (w_trace w ++ [E_uv_tty_set_mode s m (uv_tty_set_mode env s m)]))
  else (Aborted, w).
Proof.
  intros Hs. unfold uwt_tty_set_mode_na. rewrite Hs.
  unfold tty_mode_switch, assert_false.
  destruct (Long_val o_mode) as [|[q|[q|q|]|]|q]; try reflexivity;
    destruct (NDEBUG env); rewrite ?orb_true_r, ?orb_false_r; try reflexivity;
    try (rewrite (proj2 (Z.leb_gt _ 2)) by lia; rewrite andb_false_r);
    reflexivity.
Qed.

(** X7: when [uwt_tty_set_mode_na] aborts.  The run is aborted exactly when
    the handle macro lets the call through, the mode is none of 0, 1, 2 and
    assertions are enabled; the world is then as it was, so no native call
    was made.  The handle is looked at first: when the macro turns the
    handle down, the function returns the macro's value without looking at
    the mode, so that even an invalid mode cannot abort, and without any
    native call. *)
Theorem set_mode_aborts_only_on_bad_mode (env : environment)
    (o_tty o_mode : value) (w : world) :
  let r := uwt_tty_set_mode_na env o_tty o_mode w in
  (fst r = Aborted <->
   (exists s, HANDLE_INIT_NOUNINIT_NA env w o_tty = inr s) /\
   ~ (0 <= Long_val o_mode <= 2) /\ NDEBUG env = false) /\
  (fst r = Aborted -> snd r = w) /\
  (forall r0, HANDLE_INIT_NOUNINIT_NA env w o_tty = inl r0 -> r = (Done r0, w)).
Proof.
  intros r. subst r.
  destruct (HANDLE_INIT_NOUNINIT_NA env w o_tty) as [r0|s] eqn:Hmacro.
  - unfold uwt_tty_set_mode_na. rewrite Hmacro.
    split; [|split].
    + split; [discriminate|]. intros [[s Hs] _]. discriminate.
    + discriminate.
    + now intros r1 [= ->].
  - rewrite (uwt_tty_set_mode_na_run env o_tty o_mode w s Hmacro).
    split; [|split; [|discriminate]].
    + destruct (Z.leb_spec 0 (Long_val o_mode)), (Z.leb_spec (Long_val o_mode) 2),
        (NDEBUG env); simpl; split;
        try discriminate; try reflexivity;
        try (intros (_ & Hm & Hn); solve [discriminate | exfalso; apply Hm; lia]);
        intros _; (split; [eauto | split; [lia | reflexivity]]).
    + destruct ((0 <=? Long_val o_mode) && (Long_val o_mode <=? 2) || NDEBUG env);
        [discriminate | reflexivity].
Qed.

(** X8: the size query.  When the handle macro lets the call through,
    [uwt_tty_get_winsize] makes one native call, on the handle its argument
    points to, and changes neither handles, custom blocks nor root table.
    A negative status gives [Error(Val_uwt_error status)], whatever the two
    out-parameters hold; any other status gives [Ok (width, height)], the
    width first.  When the macro turns the handle down, its value is
    returned and nothing is called. *)
Theorem get_winsize_query (env : environment) (o_tty : value) (w : world) :
  let r := uwt_tty_get_winsize env o_tty w in
  let s := match o_tty with
           | Val_custom b => default 0%nat (w_blocks w !! b)
           | _ => 0%nat
           end in
  let erg := fst (fst (uv_tty_get_winsize env s)) in
  let width := snd (fst (uv_tty_get_winsize env s)) in
  let height := snd (uv_tty_get_winsize env s) in
  match HANDLE_NO_UNINIT_CLOSED_WRAP env w o_tty with
  | Some r0 => r = (Done r0, w)
  | None =>
      fst r = Done (if erg <? 0
                    then Block Error_tag [Val_error (Val_uwt_error env erg)]
                    else Block Ok_tag [Block 0 [Val_long width; Val_long height]]) /\
      new_events w (snd r) = [E_uv_tty_get_winsize s erg] /\
      w_heap (snd r) = w_heap w /\ w_blocks (snd r) = w_blocks w /\
      w_roots (snd r) = w_roots w
  end.
Proof.
  cbv zeta. rewrite uwt_tty_get_winsize_run.
  destruct (HANDLE_NO_UNINIT_CLOSED_WRAP env w o_tty); [reflexivity|].
  cbv zeta. destruct (uv_tty_get_winsize env _) as [[erg width] height]; simpl.
  unfold new_events, uwt_tty_get_winsize_result; simpl.
  rewrite drop_app_length. destruct (erg <? 0); auto.
Qed.

(** X9: on an error nothing is read from the payload.  For a negative
    status, what [fs_poll_cb] does, callback argument included, is the same
    whatever the two stat records are; and the result of
    [uwt_tty_get_winsize] is the same whatever width and height hold. *)
Theorem error_ignores_payload (env : environment) (p : nat) (status : Z)
    (prev curr prev' curr' : uv_stat_t) (width height width' height' : Z)
    (w : world) :
  status < 0 ->
  fs_poll_cb env p status prev curr w = fs_poll_cb env p status prev' curr' w /\
  uwt_tty_get_winsize_result env status width height =
    uwt_tty_get_winsize_result env status width' height'.
Proof.
  intros Hneg. apply Z.ltb_lt in Hneg.
  assert (Hparam : fs_poll_cb_param env status prev curr =
                   fs_poll_cb_param env status prev' curr')
    by (unfold fs_poll_cb_param; now rewrite Hneg).
  split.
  - unfold fs_poll_cb. now rewrite Hparam.
  - unfold uwt_tty_get_winsize_result. now rewrite Hneg.
Qed.

(** ** The loop check of [uwt_fs_poll_start] *)

(** X10: a loop that is turned down.  When [INIT_LOOP_RESULT] turns the loop
    down, [uwt_fs_poll_start] returns with the world as it was, whatever the
    other arguments are: enlargement of the root table is not requested, no
    handle is created and nothing is called.  The value returned is the one
    of the macro, unless an argument check fails first: the path and the
    interval are checked before the loop. *)
Theorem rejected_loop_allocates_nothing (env : environment)
    (o_loop o_path o_interval o_cb : value) (w : world) (r0 : value) :
  INIT_LOOP_RESULT env o_loop = inl r0 ->
  uwt_fs_poll_start env o_loop o_path o_interval o_cb w =
  (Done (if negb (uwt_is_safe_string env (String_val o_path))
         then uwt__alloc_eresult VAL_UWT_ERROR_ECHARSET
         else if Ascii.eqb (String_val_0 o_path) Ascii.zero
         then uwt__alloc_eresult VAL_UWT_ERROR_EINVAL
         else if (Long_val o_interval <? 0) || (UINT_MAX <? Long_val o_interval)
         then uwt__alloc_eresult VAL_UWT_ERROR_EINVAL
         else r0), w).
Proof.
  intros Hloop. unfold uwt_fs_poll_start, UINT_VAL_RET_WRAP_EINVAL.
  destruct (uwt_is_safe_string env (String_val o_path)); simpl; [|reflexivity].
  destruct (Ascii.eqb (String_val_0 o_path) Ascii.zero); [reflexivity|].
  destruct ((Long_val o_interval <? 0) || (UINT_MAX <? Long_val o_interval));
    [reflexivity|].
  now rewrite Hloop.
Qed.

(** ** No callback from a synchronous stub *)

(** X11: the synchronous stubs never call back.  Whatever their arguments
    and outcome, [uwt_fs_poll_start], [uwt_tty_init],
    [uwt_tty_set_mode_na], [uwt_tty_reset_mode_na] and
    [uwt_tty_get_winsize] do not call a host callback: the closure given to
    [uwt_fs_poll_start] is only pinned, never run by the start itself.  All
    of them but [uwt_tty_set_mode_na] always return a value. *)
Theorem synchronous_stubs_never_call_back (env : environment)
    (o_loop o_path o_interval o_cb o_fd o_readable o_tty o_mode unit : value)
    (w : world) :
  let quiet (r : outcome value * world) :=
    count_events is_callback (new_events w (snd r)) = 0%nat in
  let returns (r : outcome value * world) := exists x, fst r = Done x in
  (quiet (uwt_fs_poll_start env o_loop o_path o_interval o_cb w) /\
   returns (uwt_fs_poll_start env o_loop o_path o_interval o_cb w)) /\
  (quiet (uwt_tty_init env o_loop o_fd o_readable w) /\
   returns (uwt_tty_init env o_loop o_fd o_readable w)) /\
  quiet (uwt_tty_set_mode_na env o_tty o_mode w) /\
  (quiet (uwt_tty_reset_mode_na env unit w) /\
   returns (uwt_tty_reset_mode_na env unit w)) /\
  (quiet (uwt_tty_get_winsize env o_tty w) /\
   returns (uwt_tty_get_winsize env o_tty w)).
Proof.
  intros quiet returns. subst quiet returns. unfold new_events. cbv beta.
  split; [|split; [|split; [|split]]].
  - destruct (uwt_fs_poll_start_cases env o_loop o_path o_interval o_cb w)
      as [[r0 Hr] | [[_ Hr] | (l & interval & Hs & Hn & Hi & Hl & Hg)]].
    + rewrite Hr; simpl. rewrite drop_all. eauto.
    + rewrite Hr; simpl. rewrite drop_app_length. eauto.
    + destruct (GR_ROOT_ENLARGE_room _ _ _ Hg) as (_ & _ & _ & Htrace & _).
      rewrite (uwt_fs_poll_start_run env o_loop o_path o_interval o_cb
                 w _ l interval Hs Hn Hi Hl Hg).
      destruct (_ <? 0); [|destruct (_ <? 0)]; simpl;
        rewrite Htrace, <- app_assoc, drop_app_length; simpl; eauto.
  - rewrite uwt_tty_init_run.
    destruct (_ <? 0); simpl; rewrite drop_app_length; simpl; eauto.
  - destruct (uwt_tty_set_mode_na_frame env o_tty o_mode w)
      as (_ & _ & _ & [-> | (s & m & erg & ->)]).
    + now rewrite drop_all.
    + now rewrite drop_app_length.
  - rewrite uwt_tty_reset_mode_na_run; simpl. rewrite drop_app_length. eauto.
  - rewrite uwt_tty_get_winsize_run.
    destruct (HANDLE_NO_UNINIT_CLOSED_WRAP env w o_tty); simpl.
    + rewrite drop_all. eauto.
    + destruct (uv_tty_get_winsize env _) as [[erg width] height]; simpl.
      rewrite drop_app_length. eauto.
Qed.

(** ** A terminal that was opened, then queried *)

(** X12: the value [uwt_tty_init] returns designates the struct it
    initialised.  After a successful [uwt_tty_init], a size query on the
    returned handle value that the handle macro lets through calls
    [uv_tty_get_winsize] on the very struct that was given to
    [uv_tty_init], and returns its width and height. *)
Theorem tty_init_then_winsize (env : environment)
    (o_loop o_fd o_readable : value) (w : world) :
  let opened := uwt_tty_init env o_loop o_fd o_readable w in
  let h := new_handle w in
  let o_tty := Val_custom (new_block w) in
  let size := uv_tty_get_winsize env h in
  let r := uwt_tty_get_winsize env o_tty (snd opened) in
  0 <= uv_tty_init env (Uv_loop_val env o_loop) h (FD_VAL o_fd)
         (Long_val o_readable =? 1) ->
  HANDLE_NO_UNINIT_CLOSED_WRAP env (snd opened) o_tty = None ->
  fst opened = Done (Block Ok_tag [o_tty]) /\
  new_events w (snd r) =
    [E_handle_create UV_TTY true (new_block w) h;
     E_uv_tty_init (Uv_loop_val env o_loop) h (FD_VAL o_fd)
       (Long_val o_readable =? 1)
       (uv_tty_init env (Uv_loop_val env o_loop) h (FD_VAL o_fd)
          (Long_val o_readable =? 1));
     E_uv_tty_get_winsize h (fst (fst size))] /\
  fst r = Done (uwt_tty_get_winsize_result env (fst (fst size)) (snd (fst size))
                  (snd size)).
Proof.
  intros opened h o_tty size r Hok Hmacro.
  subst r. rewrite uwt_tty_get_winsize_run, Hmacro.
  subst opened. clear Hmacro. rewrite uwt_tty_init_run. fold h.
  apply Z.ltb_ge in Hok. rewrite Hok. cbv zeta. simpl.
  rewrite lookup_insert_eq. simpl. fold size.
  destruct size as [[erg width] height]. simpl.
  unfold new_events. simpl. rewrite <- app_assoc, drop_app_length. auto.
Qed.

Lemma tty_init_then_winsize_witness :
  (* 2^32 is descriptor 0 once it is a C [int], which [uv_tty_init] opens *)
  new_events empty_world
    (snd (uwt_tty_get_winsize stdin_only_env (Val_custom 0)
            (snd (uwt_tty_init stdin_only_env Val_unit (Val_long 4294967296)
                    (Val_long 1) empty_world))))
  = [E_handle_create UV_TTY true 0 1; E_uv_tty_init 7 1 0 true 0;
     E_uv_tty_get_winsize 1 0] /\
  fst (uwt_tty_get_winsize stdin_only_env (Val_custom 0)
         (snd (uwt_tty_init stdin_only_env Val_unit (Val_long 4294967296)
                 (Val_long 1) empty_world)))
  = Done (Block Ok_tag [Block 0 [Val_long 80; Val_long 24]]).
Proof.
  pose proof (tty_init_then_winsize stdin_only_env Val_unit
                (Val_long 4294967296) (Val_long 1) empty_world) as T.
  cbv zeta in T.
  assert (Hok : 0 <= uv_tty_init stdin_only_env
                       (Uv_loop_val stdin_only_env Val_unit)
                       (new_handle empty_world)
                       (FD_VAL (Val_long 4294967296))
                       (Long_val (Val_long 1) =? 1))
    by (vm_compute; discriminate).
  destruct (T Hok eq_refl) as (_ & T2 & T3).
  split; [exact T2 | exact T3].
Defined.

(** ** The properties above, on runs *)

Lemma start_then_event_witness :
  List.filter is_callback
    (drop (length (w_trace (snd (uwt_fs_poll_start raising_env Val_unit
                                   (Val_string "/tmp/watched") (Val_long 100)
                                   (Val_closure 1) empty_world))))
       (w_trace (snd (fs_poll_cb raising_env 1 0 [1; 2] [1; 5]
                        (snd (uwt_fs_poll_start raising_env Val_unit
                                (Val_string "/tmp/watched") (Val_long 100)
                                (Val_closure 1) empty_world))))))
  = [E_callback (Val_closure 1) (Val_custom 0)
       (Block Ok_tag [Block 0 [Block 0 [Val_long 1; Val_long 2];
                               Block 0 [Val_long 1; Val_long 5]]])] /\
  w_roots (snd (fs_poll_cb raising_env 1 0 [1; 2] [1; 5]
                  (snd (uwt_fs_poll_start raising_env Val_unit
                          (Val_string "/tmp/watched") (Val_long 100)
                          (Val_closure 1) empty_world))))
  = [None; None].
Proof.
  pose proof (start_then_event raising_env Val_unit (Val_string "/tmp/watched")
                (Val_long 100) (Val_closure 1) empty_world
                (snd (GR_ROOT_ENLARGE raising_env empty_world)) 7%nat 100
                0 [1; 2] [1; 5] eq_refl eq_refl eq_refl eq_refl eq_refl) as T.
  cbv zeta in T.
  assert (Hinit : 0 <= uv_fs_poll_init raising_env 7
                         (new_handle (snd (GR_ROOT_ENLARGE raising_env empty_world))))
    by (vm_compute; discriminate).
  assert (Hstart : 0 <= uv_fs_poll_start raising_env
                          (new_handle (snd (GR_ROOT_ENLARGE raising_env empty_world)))
                          (String_val (Val_string "/tmp/watched")) 100)
    by (vm_compute; discriminate).
  destruct (T Hinit Hstart) as (_ & _ & _ & T4 & T5 & _).
  split; [exact T4 | exact T5].
Defined.

Lemma poller_keeps_consistency_witness :
  registry_consistent
    (snd (fs_poll_cb raising_env 1 0 [] []
            (snd (uwt_fs_poll_start raising_env Val_unit
                    (Val_string "/tmp/watched") (Val_long 100) (Val_closure 1)
                    empty_world)))).
Proof.
  pose proof (poller_keeps_consistency raising_env Val_unit
                (Val_string "/tmp/watched") (Val_long 100) (Val_closure 1)
                1%nat 0 [] [] empty_world consistent_empty) as [T1 _].
  pose proof (poller_keeps_consistency raising_env Val_unit
                (Val_string "/tmp/watched") (Val_long 100) (Val_closure 1)
                1%nat 0 [] []
                (snd (uwt_fs_poll_start raising_env Val_unit
                        (Val_string "/tmp/watched") (Val_long 100)
                        (Val_closure 1) empty_world)) T1) as [_ T2].
  exact T2.
Defined.

Lemma tty_keeps_consistency_witness :
  registry_consistent
    (snd (uwt_tty_set_mode_na (example_env 0 0 0 0) (Val_custom 0) (Val_long 1)
            (snd (uwt_tty_init (example_env 0 0 0 0) Val_unit (Val_long 0)
                    (Val_long 1) empty_world)))).
Proof.
  pose proof (tty_keeps_consistency (example_env 0 0 0 0) Val_unit (Val_long 0)
                (Val_long 1) (Val_custom 0) (Val_long 1) Val_unit
                empty_world consistent_empty) as [T1 _].
  pose proof (tty_keeps_consistency (example_env 0 0 0 0) Val_unit (Val_long 0)
                (Val_long 1) (Val_custom 0) (Val_long 1) Val_unit
                (snd (uwt_tty_init (example_env 0 0 0 0) Val_unit (Val_long 0)
                        (Val_long 1) empty_world)) T1) as (_ & T2 & _).
  exact T2.
Defined.

(** A poller is started, then a terminal is opened (and fails to open,
    ENOTTY), then the poller's first event comes. *)
Lemma active_poller_survives_witness :
  List.filter is_callback
    (new_events
       (snd (uwt_tty_init (example_env 0 0 (-25) 0) Val_unit (Val_long 0)
               (Val_long 1)
               (snd (uwt_fs_poll_start (example_env 0 0 (-25) 0) Val_unit
                       (Val_string "/tmp/watched") (Val_long 100)
                       (Val_closure 1) empty_world))))
       (snd (fs_poll_cb (example_env 0 0 (-25) 0) 1 (-2) [] []
               (snd (uwt_tty_init (example_env 0 0 (-25) 0) Val_unit
                       (Val_long 0) (Val_long 1)
                       (snd (uwt_fs_poll_start (example_env 0 0 (-25) 0)
                               Val_unit (Val_string "/tmp/watched")
                               (Val_long 100) (Val_closure 1)
                               empty_world)))))))
  = [E_callback (Val_closure 1) (Val_custom 0)
       (Block Error_tag [Val_error (UWT_ERRNO 1)])].
Proof.
  assert (Hlive : w_heap (snd (uwt_fs_poll_start (example_env 0 0 (-25) 0)
                                 Val_unit (Val_string "/tmp/watched")
                                 (Val_long 100) (Val_closure 1) empty_world))
                    !! 1%nat
                  = Some (Handle UV_FS_POLL false false (Some 0%nat) (Some 1%nat)))
    by (vm_compute; reflexivity).
  assert (Hcb : w_roots (snd (uwt_fs_poll_start (example_env 0 0 (-25) 0)
                                Val_unit (Val_string "/tmp/watched")
                                (Val_long 100) (Val_closure 1) empty_world))
                  !! 0%nat = Some (Some (Val_closure 1)))
    by (vm_compute; reflexivity).
  assert (Ht : w_roots (snd (uwt_fs_poll_start (example_env 0 0 (-25) 0)
                               Val_unit (Val_string "/tmp/watched")
                               (Val_long 100) (Val_closure 1) empty_world))
                 !! 1%nat = Some (Some (Val_custom 0)))
    by (vm_compute; reflexivity).
  pose proof (active_poller_survives (example_env 0 0 (-25) 0) 1%nat _ _ _ _ _ _
                Hlive eq_refl eq_refl eq_refl Hcb Ht
                Val_unit (Val_string "/tmp/other") (Val_long 5) (Val_closure 2)
                (Val_long 0) (Val_long 1) (Val_custom 0) (Val_long 0) Val_unit
                (-2) [] []) as T.
  cbv zeta in T. destruct T as (_ & T2 & _).
  exact T2.
Defined.

(** With a callback that raises, the first event closes the poller and the
    second one reaches nobody. *)
Lemma two_events_in_a_row_witness :
  List.filter is_callback
    (new_events
       (snd (uwt_fs_poll_start raising_env Val_unit (Val_string "/tmp/watched")
               (Val_long 100) (Val_closure 1) empty_world))
       (snd (fs_poll_cb raising_env 1 0 [3] [4]
               (snd (fs_poll_cb raising_env 1 (-2) [] []
                       (snd (uwt_fs_poll_start raising_env Val_unit
                               (Val_string "/tmp/watched") (Val_long 100)
                               (Val_closure 1) empty_world)))))))
  = [E_callback (Val_closure 1) (Val_custom 0)
       (Block Error_tag [Val_error (UWT_ERRNO 1)])].
Proof.
  assert (Hlive : w_heap (snd (uwt_fs_poll_start raising_env
                                 Val_unit (Val_string "/tmp/watched")
                                 (Val_long 100) (Val_closure 1) empty_world))
                    !! 1%nat
                  = Some (Handle UV_FS_POLL false false (Some 0%nat) (Some 1%nat)))
    by (vm_compute; reflexivity).
  assert (Hcb : w_roots (snd (uwt_fs_poll_start raising_env
                                Val_unit (Val_string "/tmp/watched")
                                (Val_long 100) (Val_closure 1) empty_world))
                  !! 0%nat = Some (Some (Val_closure 1)))
    by (vm_compute; reflexivity).
  assert (Ht : w_roots (snd (uwt_fs_poll_start raising_env
                               Val_unit (Val_string "/tmp/watched")
                               (Val_long 100) (Val_closure 1) empty_world))
                 !! 1%nat = Some (Some (Val_custom 0)))
    by (vm_compute; reflexivity).
  pose proof (two_events_in_a_row raising_env 1%nat _ _ _ _ _ _
                Hlive eq_refl eq_refl eq_refl Hcb Ht (-2) 0 [] [] [3] [4]) as T.
  cbv zeta in T. destruct T as (T1 & _).
  exact T1.
Defined.

Lemma error_ignores_payload_witness :
  fs_poll_cb (example_env 0 0 0 0) 1 (-2) [1; 2] [3; 4]
    (snd (uwt_fs_poll_start (example_env 0 0 0 0) Val_unit
            (Val_string "/tmp/watched") (Val_long 100) (Val_closure 1)
            empty_world))
  = fs_poll_cb (example_env 0 0 0 0) 1 (-2) [] []
      (snd (uwt_fs_poll_start (example_env 0 0 0 0) Val_unit
              (Val_string "/tmp/watched") (Val_long 100) (Val_closure 1)
              empty_world)).
Proof.
  destruct (error_ignores_payload (example_env 0 0 0 0) 1 (-2) [1; 2] [3; 4]
              [] [] 80 24 0 0
              (snd (uwt_fs_poll_start (example_env 0 0 0 0) Val_unit
                      (Val_string "/tmp/watched") (Val_long 100)
                      (Val_closure 1) empty_world))) as [T _].
  - lia.
  - exact T.
Defined.

Lemma rejected_loop_allocates_nothing_witness :
  uwt_fs_poll_start (rejecting_env false) Val_unit (Val_string "/tmp/watched")
    (Val_long 100) (Val_closure 1) empty_world
  = (Done (Val_long 9), empty_world) /\
  uwt_fs_poll_start (rejecting_env false) Val_unit (Val_string "")
    (Val_long 100) (Val_closure 1) empty_world
  = (Done (Block Error_tag [Val_error UWT_EINVAL]), empty_world).
Proof.
  split.
  - exact (rejected_loop_allocates_nothing (rejecting_env false) Val_unit
             (Val_string "/tmp/watched") (Val_long 100) (Val_closure 1)
             empty_world (Val_long 9) eq_refl).
  - exact (rejected_loop_allocates_nothing (rejecting_env false) Val_unit
             (Val_string "") (Val_long 100) (Val_closure 1)
             empty_world (Val_long 9) eq_refl).
Defined.

(** An invalid mode on a handle that the macro turns down does not abort;
    on a handle that it lets through it does. *)
Lemma set_mode_aborts_only_on_bad_mode_witness :
  uwt_tty_set_mode_na (rejecting_env false) (Val_custom 0) (Val_long 7)
    empty_world
  = (Done (Val_long 9), empty_world) /\
  fst (uwt_tty_set_mode_na (example_env 0 0 0 0) (Val_custom 0) (Val_long 7)
         (snd (uwt_tty_init (example_env 0 0 0 0) Val_unit (Val_long 0)
                 (Val_long 1) empty_world)))
  = Aborted.
Proof.
  split.
  - destruct (set_mode_aborts_only_on_bad_mode (rejecting_env false)
                (Val_custom 0) (Val_long 7) empty_world) as (_ & _ & T).
    exact (T (Val_long 9) eq_refl).
  - destruct (set_mode_aborts_only_on_bad_mode (example_env 0 0 0 0)
                (Val_custom 0) (Val_long 7)
                (snd (uwt_tty_init (example_env 0 0 0 0) Val_unit (Val_long 0)
                        (Val_long 1) empty_world))) as (T & _).
    apply T. split; [|split].
    + exists 1%nat. vm_compute. reflexivity.
    + simpl. lia.
    + reflexivity.
Defined.
